(** * netcoredbg: the debugger's entry point (src/main.cpp)

    A shallow embedding of [main]: the command-line scan, the selection of
    the protocol variant, the construction of the IO redirect server, the
    optional attach sequence and the hand-off to the protocol's command loop.

    [main] is a sequence of effects on collaborators that live in other
    translation units (the protocol classes, [ManagedDebugger],
    [IORedirectServer], the logger).  The embedding records every such effect
    as an [Event], in program order, and threads the early [return]s of the
    C++ code through a small exit monad.  Results that the collaborators hand
    back to [main] (the three HRESULTs of the engine) are read from an
    [Engine] record, values that the platform supplies (process id, temporary
    folder, version and build strings) from a [Platform] record.

    The model is that of the non-Windows LP64 build: [unsigned long] has 64
    bits, [DWORD] 32 bits and the path separator is the slash. *)

From Stdlib Require Import String Ascii ZArith List Bool Lia.
From Stdlib Require DecimalString HexadecimalString DecimalPos DecimalN.
Import ListNotations.

Open Scope string_scope.
Open Scope Z_scope.

(** ** The pieces of the C library that [main] uses *)

Module CLib.

Definition nl : string := String (ascii_of_nat 10) EmptyString.

Definition EXIT_SUCCESS : Z := 0.
Definition EXIT_FAILURE : Z := 1.

Definition PATH_MAX : nat := 4096.
Definition ULONG_MAX : Z := 2 ^ 64 - 1.

(** [isspace] in the C locale: space and the controls 9 to 13. *)
Definition isspace (c : ascii) : bool :=
  let n := nat_of_ascii c in
  (Nat.eqb n 32 || (Nat.leb 9 n && Nat.leb n 13))%bool.

Definition digit_val (c : ascii) : option Z :=
  let n := nat_of_ascii c in
  if (Nat.leb 48 n && Nat.leb n 57)%bool then Some (Z.of_nat n - 48) else None.

Definition isdigit (c : ascii) : bool :=
  match digit_val c with Some _ => true | None => false end.

Fixpoint skip_space (s : string) : string :=
  match s with
  | String c r => if isspace c then skip_space r else s
  | EmptyString => s
  end.

(** The optional sign: whether it is a minus, and what follows it. *)
Definition skip_sign (s : string) : bool * string :=
  match s with
  | String "-" r => (true, r)
  | String "+" r => (false, r)
  | _ => (false, s)
  end.

(** The longest run of decimal digits, accumulated without a bound, and the
    text that follows it. *)
Fixpoint digits (acc : Z) (s : string) : Z * string :=
  match s with
  | String c r =>
      match digit_val c with
      | Some d => digits (acc * 10 + d) r
      | None => (acc, s)
      end
  | EmptyString => (acc, s)
  end.

Definition starts_with_digit (s : string) : bool :=
  match s with
  | String c _ => isdigit c
  | EmptyString => false
  end.

(** [strtoul (nptr, &endptr, 10)]: the value and the text [endptr] points
    at.  Without a digit nothing is converted and [endptr] is [nptr]; a
    value above [ULONG_MAX] is clamped; a minus sign negates in
    [unsigned long]. *)
Definition strtoul (nptr : string) : Z * string :=
  let (neg, body) := skip_sign (skip_space nptr) in
  if starts_with_digit body then
    let (v, endptr) := digits 0 body in
    if ULONG_MAX <? v then (ULONG_MAX, endptr)
    else if neg then ((- v) mod 2 ^ 64, endptr)
    else (v, endptr)
  else (0, nptr).

(** [p + n] on a string: the text from offset [n] on. *)
Fixpoint advance (n : nat) (s : string) : string :=
  match n, s with
  | O, _ => s
  | S n', String _ r => advance n' r
  | S _, EmptyString => EmptyString
  end.

(** [strcmp (a, b) == 0] *)
Definition streq (a b : string) : bool := String.eqb a b.

(** [strstr (s, pre) == s] *)
Definition starts_with (pre s : string) : bool := String.prefix pre s.

(** The text after the last path separator, as the loop over [s[-1]]
    computes it: [cur] is the candidate start, moved past every slash. *)
Fixpoint basename_from (cur s : string) : string :=
  match s with
  | String c r => if Ascii.eqb c "/" then basename_from r r else basename_from cur r
  | EmptyString => cur
  end.

Definition basename (s : string) : string := basename_from s s.

(** printf conversions *)
Definition fmt_u (n : Z) : string :=
  DecimalString.NilZero.string_of_uint (N.to_uint (Z.to_N n)).

Definition fmt_d32 (n : Z) : string :=
  let u := n mod 2 ^ 32 in
  DecimalString.NilZero.string_of_int
    (Z.to_int (if u <? 2 ^ 31 then u else u - 2 ^ 32)).

Definition fmt_x32 (n : Z) : string :=
  HexadecimalString.NilZero.string_of_uint (N.to_hex_uint (Z.to_N (n mod 2 ^ 32))).

(** [snprintf] into a buffer of [size] bytes keeps [size - 1] characters. *)
Definition snprintf (size : nat) (s : string) : string :=
  String.substring 0 (size - 1) s.

End CLib.

Import CLib.

Arguments strtoul : simpl never.
Arguments fmt_u : simpl never.
Arguments fmt_d32 : simpl never.
Arguments fmt_x32 : simpl never.
Arguments snprintf : simpl never.

(** ** Types of the collaborators *)

Definition HRESULT := Z.
Definition DWORD := Z.

Definition FAILED (hr : HRESULT) : bool := hr <? 0.

Definition to_DWORD (n : Z) : DWORD := n mod 2 ^ 32.
Definition to_uint16 (n : Z) : Z := n mod 2 ^ 16.

Definition DEFAULT_SERVER_PORT : Z := 4711.

Inductive InterpreterType : Type :=
| InterpreterMI
| InterpreterVSCode
| InterpreterCLI.

Definition InterpreterType_eqb (a b : InterpreterType) : bool :=
  match a, b with
  | InterpreterMI, InterpreterMI
  | InterpreterVSCode, InterpreterVSCode
  | InterpreterCLI, InterpreterCLI => true
  | _, _ => false
  end.

(** Modelled from the spec: the output channel enumeration is declared in a
    protocol header that is not part of src/; the spec gives it the two
    channels StdOut and StdErr. *)
Inductive OutputType : Type :=
| OutputStdOut
| OutputStdErr.

Record OutputEvent : Type := mkOutputEvent
  { source : OutputType;
    output : string }.

(** A call that a redirect callback makes on the protocol. *)
Inductive ProtocolCall : Type :=
| EmitOutputEvent (ev : OutputEvent).

(** The observable effects of [main], one constructor per kind of call. *)
Inductive Event : Type :=
| CinTieNull
| Stdout (text : string)
| Stderr (text : string)
| Setenv (name value : string)
| LogI (msg : string)
| NewManagedDebugger
| NewProtocol (kind : InterpreterType)
| SetDebugger (kind : InterpreterType)
| SetLaunchCommand (kind : InterpreterType) (file : string) (args : list string)
| EngineLogging (path : string)
| OverrideLaunchCommand (file : string) (args : list string)
| SetProtocol
| NewIORedirectServer (port : Z) (onStdOut onStdErr : string -> ProtocolCall)
| Initialize
| Attach (pid : DWORD)
| ConfigurationDone
| CommandLoop.

(** What the engine answers to the three lifecycle calls. *)
Record Engine : Type := mkEngine
  { Initialize_result : HRESULT;
    Attach_result : DWORD -> HRESULT;
    ConfigurationDone_result : HRESULT }.

(** buildinfo.cpp and version.h *)
Record BuildInfo : Type := mkBuildInfo
  { BUILD_NETCOREDBG_DATE : string;
    CMAKE_SYSTEM_NAME : string;
    CLR_CMAKE_TARGET_ARCH : string;
    BUILD_NETCOREDBG_GIT_HEAD : string;
    BUILD_NETCOREDBG_GIT_DATE : string;
    BUILD_NETCOREDBG_GIT_SUBJECT : string;
    BUILD_NETCOREDBG_GIT_REFSPEC : string;
    BUILD_CORECLR_GIT_HEAD : string;
    BUILD_CORECLR_GIT_DATE : string;
    BUILD_CORECLR_GIT_SUBJECT : string;
    BUILD_CORECLR_GIT_REFSPEC : string }.

Record Platform : Type := mkPlatform
  { getpid : Z;
    GetTempFolder : string;
    VERSION : string;
    BUILDINFO : BuildInfo }.

(** ** Early return and the trace of effects *)

Inductive Flow (A : Type) : Type :=
| Next (a : A)
| Return (code : Z).

Arguments Next {A} a.
Arguments Return {A} code.

Definition M (A : Type) : Type := (Flow A * list Event)%type.

Definition ret {A} (a : A) : M A := (Next a, []).

Definition bind {A B} (m : M A) (k : A -> M B) : M B :=
  match m with
  | (Next a, t) => let (r, t') := k a in (r, (t ++ t')%list)
  | (Return c, t) => (Return c, t)
  end.

Definition emit (e : Event) : M unit := (Next tt, [e]).

Definition exit_with {A} (code : Z) : M A := (Return code, []).

Notation "x <- m ;; k" := (bind m (fun x => k))
  (at level 61, m at next level, right associativity).
Notation "m ;; k" := (bind m (fun _ => k))
  (at level 61, right associativity).

Definition fprintf_stderr (s : string) : M unit := emit (Stderr s).
Definition fprintf_stdout (s : string) : M unit := emit (Stdout s).
Definition LOGI (s : string) : M unit := emit (LogI s).

(** ** The banners *)

Definition help_text : string :=
  String.concat nl
    [ ".NET Core debugger";
      "";
      "Options:";
      "--buildinfo                           Print build info.";
      "--attach <process-id>                 Attach the debugger to the specified process id.";
      "--interpreter=cli                     Runs the debugger with Command Line Interface. ";
      "--interpreter=mi                      Puts the debugger into MI mode.";
      "--interpreter=vscode                  Puts the debugger into VS Code Debugger mode.";
      "--engineLogging[=<path to log file>]  Enable logging to VsDbg-UI or file for the engine.";
      "                                      Only supported by the VsCode interpreter.";
      "--server[=port_num]                   Start the debugger listening for requests on the";
      "                                      specified TCP/IP port instead of stdin/out. If port is not specified";
      "                                      TCP " ++ fmt_d32 DEFAULT_SERVER_PORT ++ " will be used.";
      "--log[=<type>]                        Enable logging. Supported logging to file and to dlog (only for Tizen)";
      "                                      File log by default. File is created in 'current' folder.";
      "--version                             Displays the current version.";
      "" ].

Definition print_help : M unit := fprintf_stdout help_text.

Definition print_buildinfo (b : BuildInfo) : M unit :=
  fprintf_stdout (".NET Core debugger" ++ nl) ;;
  fprintf_stdout
    (String.concat nl
       [ "";
         "    Build info:";
         "      Build date:  " ++ BUILD_NETCOREDBG_DATE b;
         "      Target OS:   " ++ CMAKE_SYSTEM_NAME b;
         "      Target arch: " ++ CLR_CMAKE_TARGET_ARCH b;
         "" ]) ;;
  fprintf_stdout
    (String.concat nl
       [ "";
         "    NetcoreDBG HEAD commit info:";
         "      Hash:    " ++ BUILD_NETCOREDBG_GIT_HEAD b;
         "      Date:    " ++ BUILD_NETCOREDBG_GIT_DATE b;
         "      Subject: " ++ BUILD_NETCOREDBG_GIT_SUBJECT b;
         "      Refs:    " ++ BUILD_NETCOREDBG_GIT_REFSPEC b;
         "" ]) ;;
  fprintf_stdout
    (String.concat nl
       [ "";
         "    CoreCLR HEAD commit info:";
         "      Hash:    " ++ BUILD_CORECLR_GIT_HEAD b;
         "      Date:    " ++ BUILD_CORECLR_GIT_DATE b;
         "      Subject: " ++ BUILD_CORECLR_GIT_SUBJECT b;
         "      Refs:    " ++ BUILD_CORECLR_GIT_REFSPEC b;
         "";
         "" ]).

Definition print_version (version : string) : M unit :=
  fprintf_stdout ("NET Core debugger " ++ version ++ nl) ;;
  fprintf_stdout (nl ++ "Copyright (c) 2020 Samsung Electronics Co., LTD" ++ nl) ;;
  fprintf_stdout ("Distributed under the MIT License." ++ nl) ;;
  fprintf_stdout ("See the LICENSE file in the project root for more information." ++ nl).

(** ** The local variables of [main] that the argument scan fills in *)

Record Locals : Type := mkLocals
  { pidDebuggee : DWORD;
    interpreterType : InterpreterType;
    engineLogging : bool;
    logFilePath : string;
    serverPort : Z;
    execFile : string;
    execArgs : list string }.

Definition initial_locals : Locals :=
  {| pidDebuggee := 0;
     interpreterType := InterpreterMI;
     engineLogging := false;
     logFilePath := "";
     serverPort := 0;
     execFile := "";
     execArgs := [] |}.

Definition set_pidDebuggee (v : DWORD) (l : Locals) : Locals :=
  mkLocals v (interpreterType l) (engineLogging l) (logFilePath l)
           (serverPort l) (execFile l) (execArgs l).

Definition set_interpreterType (v : InterpreterType) (l : Locals) : Locals :=
  mkLocals (pidDebuggee l) v (engineLogging l) (logFilePath l)
           (serverPort l) (execFile l) (execArgs l).

Definition set_engineLogging (v : bool) (l : Locals) : Locals :=
  mkLocals (pidDebuggee l) (interpreterType l) v (logFilePath l)
           (serverPort l) (execFile l) (execArgs l).

Definition set_logFilePath (v : string) (l : Locals) : Locals :=
  mkLocals (pidDebuggee l) (interpreterType l) (engineLogging l) v
           (serverPort l) (execFile l) (execArgs l).

Definition set_serverPort (v : Z) (l : Locals) : Locals :=
  mkLocals (pidDebuggee l) (interpreterType l) (engineLogging l) (logFilePath l)
           v (execFile l) (execArgs l).

Definition set_execFile (v : string) (l : Locals) : Locals :=
  mkLocals (pidDebuggee l) (interpreterType l) (engineLogging l) (logFilePath l)
           (serverPort l) v (execArgs l).

Definition push_back_execArgs (vs : list string) (l : Locals) : Locals :=
  mkLocals (pidDebuggee l) (interpreterType l) (engineLogging l) (logFilePath l)
           (serverPort l) (execFile l) (execArgs l ++ vs)%list.

(** ** The argument scan (main.cpp, lines 132 to 253)

    [parse_args] is the [for] loop over [argv[1..]]: [args] is what is left
    from index [i] on.  [--attach] takes the next element as well, [--]
    takes all the rest and leaves the loop.  The elements of [argv] are
    NUL-terminated: the terminator that [*err] tests for is the end of the
    string. *)

Section Scan.

Variable P : Platform.
Variable argv0 : string.

Definition log_output_default : string :=
  snprintf PATH_MAX
    (GetTempFolder P ++ "/" ++ basename argv0 ++ "."
       ++ fmt_u (getpid P mod 2 ^ 32) ++ ".log").

Fixpoint parse_args (l : Locals) (args : list string) : M Locals :=
  match args with
  | [] => ret l
  | a :: rest =>
      if streq a "--attach" then
        match rest with
        | [] =>
            fprintf_stderr ("Error: Missing process id" ++ nl) ;;
            exit_with EXIT_FAILURE
        | v :: rest' =>
            let (n, err) := strtoul v in
            let l' := set_pidDebuggee (to_DWORD n) l in
            match err with
            | String _ _ =>
                fprintf_stderr ("Error: Missing process id" ++ nl) ;;
                exit_with EXIT_FAILURE
            | EmptyString => parse_args l' rest'
            end
        end
      else if streq a "--interpreter=mi" then
        parse_args (set_interpreterType InterpreterMI l) rest
      else if streq a "--interpreter=vscode" then
        parse_args (set_interpreterType InterpreterVSCode l) rest
      else if streq a "--interpreter=cli" then
        parse_args (set_interpreterType InterpreterCLI l) rest
      else if streq a "--engineLogging" then
        parse_args (set_engineLogging true l) rest
      else if starts_with "--engineLogging=" a then
        parse_args
          (set_logFilePath (advance (String.length "--engineLogging=") a)
             (set_engineLogging true l)) rest
      else if streq a "--help" then
        print_help ;; exit_with EXIT_SUCCESS
      else if streq a "--buildinfo" then
        print_buildinfo (BUILDINFO P) ;; exit_with EXIT_SUCCESS
      else if streq a "--version" then
        print_version (VERSION P) ;; exit_with EXIT_SUCCESS
      else if streq a "--log" then
        emit (Setenv "LOG_OUTPUT" log_output_default) ;;
        parse_args l rest
      else if starts_with "--log=" a then
        emit (Setenv "LOG_OUTPUT" (advance (String.length "--log=") a)) ;;
        parse_args l rest
      else if streq a "--server" then
        parse_args (set_serverPort DEFAULT_SERVER_PORT l) rest
      else if starts_with "--server=" a then
        let (n, err) := strtoul (advance (String.length "--server=") a) in
        let l' := set_serverPort (to_uint16 n) l in
        match err with
        | String _ _ =>
            fprintf_stderr ("Error: Missing process id" ++ nl) ;;
            exit_with EXIT_FAILURE
        | EmptyString => parse_args l' rest
        end
      else if streq a "--" then
        match rest with
        | file :: rest' =>
            ret (push_back_execArgs rest' (set_execFile file l))
        | [] =>
            fprintf_stderr ("Error: Missing program argument" ++ nl) ;;
            exit_with EXIT_FAILURE
        end
      else
        fprintf_stderr ("Error: Unknown option " ++ a ++ nl) ;;
        exit_with EXIT_FAILURE
  end.

End Scan.

(** ** Variant selection, redirect server, attach and command loop
       (main.cpp, lines 255 to 337) *)

Definition empty (s : string) : bool :=
  match s with
  | EmptyString => true
  | String _ _ => false
  end.

Definition when (b : bool) (m : M unit) : M unit :=
  if b then m else ret tt.

Definition engine_logging_unsupported : string :=
  "Error: Engine logging is only supported in VsCode interpreter mode.".

(** Both lambdas handed to the redirect server have this body. *)
Definition redirect_StdOut (text : string) : ProtocolCall :=
  EmitOutputEvent (mkOutputEvent OutputStdOut text).

Section Session.

Variable E : Engine.

(** The engine's lifecycle calls, each with the HRESULT it returns. *)
Definition debugger_Initialize : M HRESULT :=
  emit Initialize ;; ret (Initialize_result E).

Definition debugger_Attach (pid : DWORD) : M HRESULT :=
  emit (Attach pid) ;; ret (Attach_result E pid).

Definition debugger_ConfigurationDone : M HRESULT :=
  emit ConfigurationDone ;; ret (ConfigurationDone_result E).

(** The [switch] over [interpreterType]. *)
Definition select_protocol (l : Locals) : M unit :=
  match interpreterType l with
  | InterpreterMI =>
      LOGI "InterpreterMI selected" ;;
      when (engineLogging l)
        (fprintf_stderr (engine_logging_unsupported ++ nl) ;;
         LOGI engine_logging_unsupported ;;
         exit_with EXIT_FAILURE) ;;
      emit (NewProtocol InterpreterMI) ;;
      emit (SetDebugger InterpreterMI) ;;
      LOGI "SetDebugger for InterpreterMI" ;;
      when (negb (empty (execFile l)))
        (emit (SetLaunchCommand InterpreterMI (execFile l) (execArgs l)))
  | InterpreterVSCode =>
      LOGI "InterpreterVSCode selected" ;;
      emit (NewProtocol InterpreterVSCode) ;;
      emit (SetDebugger InterpreterVSCode) ;;
      LOGI "SetDebugger for InterpreterVSCode" ;;
      when (engineLogging l) (emit (EngineLogging (logFilePath l))) ;;
      when (negb (empty (execFile l)))
        (emit (OverrideLaunchCommand (execFile l) (execArgs l)))
  | InterpreterCLI =>
      LOGI "InterpreterCLI selected" ;;
      when (engineLogging l)
        (fprintf_stderr (engine_logging_unsupported ++ nl) ;;
         LOGI engine_logging_unsupported ;;
         exit_with EXIT_FAILURE) ;;
      emit (NewProtocol InterpreterCLI) ;;
      emit (SetDebugger InterpreterCLI) ;;
      LOGI "SetDebugger for InterpreterCLI" ;;
      when (negb (empty (execFile l)))
        (emit (SetLaunchCommand InterpreterCLI (execFile l) (execArgs l)))
  end.

Definition start_redirect (l : Locals) : M unit :=
  when (negb (InterpreterType_eqb (interpreterType l) InterpreterCLI))
    (emit (NewIORedirectServer (serverPort l) redirect_StdOut redirect_StdOut)).

(** The results of [Initialize] and [Attach] are dropped; [Status] is the
    result of [ConfigurationDone]. *)
Definition attach (l : Locals) : M unit :=
  when (negb (pidDebuggee l =? 0))
    (_ <- debugger_Initialize ;;
     _ <- debugger_Attach (pidDebuggee l) ;;
     Status <- debugger_ConfigurationDone ;;
     when (FAILED Status)
       (fprintf_stderr
          ("Error: 0x" ++ fmt_x32 Status ++ " Failed to attach to "
             ++ fmt_d32 (pidDebuggee l) ++ nl) ;;
        exit_with EXIT_FAILURE)).

Definition session (l : Locals) : M Z :=
  LOGI "Start logging" ;;
  emit NewManagedDebugger ;;
  select_protocol l ;;
  emit SetProtocol ;;
  start_redirect l ;;
  LOGI ("pidDebugee " ++ fmt_d32 (pidDebuggee l)) ;;
  attach l ;;
  emit CommandLoop ;;
  ret EXIT_SUCCESS.

End Session.

(** [main]: the exit status and the effects, in order.  [argv] is the whole
    vector, [argv[0]] included. *)
Definition main_body (P : Platform) (E : Engine) (argv : list string) : M Z :=
  emit CinTieNull ;;
  l <- parse_args P (hd "" argv) initial_locals (tl argv) ;;
  session E l.

Definition run (m : M Z) : Z * list Event :=
  match m with
  | (Next code, t) => (code, t)
  | (Return code, t) => (code, t)
  end.

Definition main (P : Platform) (E : Engine) (argv : list string) : Z * list Event :=
  run (main_body P E argv).

Definition exit_status (r : Z * list Event) : Z := fst r.
Definition effects (r : Z * list Event) : list Event := snd r.

(** ** Modelled parts of the collaborators *)

(** Modelled from the spec: [IORedirectServer] is not under src/ ([main]
    only constructs it).  Its [Start (port)] "binds and begins listening.
    Port 0/unspecified resolves to a documented default (4711)." *)
Definition resolve_port (port : Z) : Z :=
  if port =? 0 then 4711 else port.

(** Modelled from the spec: [MIProtocol], [CLIProtocol] and
    [VSCodeProtocol] are not under src/ ([main] only calls them).  A
    pre-seeded launch command is either set (MI, CLI: "the client's own
    launch command silently take[s] precedence if issued") or installed as an
    override (structured-message: it "unconditionally replaces whatever the
    client requests"). *)
Inductive LaunchSeed : Type :=
| NoSeed
| SeedSet (file : string) (args : list string)
| SeedOverride (file : string) (args : list string).

Definition launch_used (seed : LaunchSeed) (client : option (string * list string))
  : option (string * list string) :=
  match seed, client with
  | NoSeed, _ => client
  | SeedSet _ _, Some c => Some c
  | SeedSet file args, None => Some (file, args)
  | SeedOverride file args, _ => Some (file, args)
  end.

(** The seed that a run of [main] leaves on the variant: the last of the
    launch calls among its effects. *)
Fixpoint seed_of (acc : LaunchSeed) (t : list Event) : LaunchSeed :=
  match t with
  | [] => acc
  | SetLaunchCommand _ file args :: t' => seed_of (SeedSet file args) t'
  | OverrideLaunchCommand file args :: t' => seed_of (SeedOverride file args) t'
  | _ :: t' => seed_of acc t'
  end.

(** ** Classes of effects *)

Definition is_scan_effect (e : Event) : bool :=
  match e with
  | Stdout _ | Stderr _ | Setenv _ _ => true
  | _ => false
  end.

Definition is_setenv (e : Event) : bool :=
  match e with
  | Setenv _ _ => true
  | _ => false
  end.

Definition is_server (e : Event) : bool :=
  match e with
  | NewIORedirectServer _ _ _ => true
  | _ => false
  end.

Definition is_lifecycle (e : Event) : bool :=
  match e with
  | Initialize | Attach _ | ConfigurationDone => true
  | _ => false
  end.

(** A call on the engine object, or one that hands it to the protocol. *)
Definition is_engine_call (e : Event) : bool :=
  match e with
  | SetDebugger _ | SetProtocol | Initialize | Attach _ | ConfigurationDone => true
  | _ => false
  end.

(** The construction of a protocol variant, of the engine handle or of the
    redirect server. *)
Definition is_construction (e : Event) : bool :=
  match e with
  | NewManagedDebugger | NewProtocol _ | NewIORedirectServer _ _ _ => true
  | _ => false
  end.

Definition is_command_loop (e : Event) : bool :=
  match e with
  | CommandLoop => true
  | _ => false
  end.

Definition is_launch (e : Event) : bool :=
  match e with
  | SetLaunchCommand _ _ _ | OverrideLaunchCommand _ _ => true
  | _ => false
  end.

Definition is_variant_logging (e : Event) : bool :=
  match e with
  | NewProtocol _ | EngineLogging _ => true
  | _ => false
  end.

Definition is_stderr (e : Event) : bool :=
  match e with
  | Stderr _ => true
  | _ => false
  end.

Definition none (p : Event -> bool) (t : list Event) : Prop :=
  forallb (fun e => negb (p e)) t = true.

(** ** Shapes of command lines *)

(** [strtoul] consumes the whole of [v]: the test on [*err] lets it pass. *)
Definition converts (v : string) : bool := empty (snd (strtoul v)).

(** A number as [strtoul] reads it: blanks, an optional sign and at least
    one digit, all digits to the end. *)
Fixpoint all_digits (s : string) : bool :=
  match s with
  | String c r => isdigit c && all_digits r
  | EmptyString => true
  end.

Definition is_number (v : string) : bool :=
  let body := snd (skip_sign (skip_space v)) in
  starts_with_digit body && all_digits body.

(** An option that the scan takes in on its own and passes over. *)
Definition plain_option (a : string) : bool :=
  streq a "--interpreter=mi" || streq a "--interpreter=vscode"
  || streq a "--interpreter=cli" || streq a "--engineLogging"
  || starts_with "--engineLogging=" a || streq a "--log"
  || starts_with "--log=" a || streq a "--server"
  || (starts_with "--server=" a
      && is_number (advance (String.length "--server=") a)).

(** A prefix of the arguments that the scan passes over: plain options, and
    [--attach] each time with a number. *)
Fixpoint passes (pre : list string) : bool :=
  match pre with
  | [] => true
  | a :: rest =>
      if streq a "--attach" then
        match rest with
        | v :: rest' => is_number v && passes rest'
        | [] => false
        end
      else plain_option a && passes rest
  end.

(** An argument in option position that is none of the options. *)
Definition unknown_option (a : string) : bool :=
  negb (streq a "--attach" || plain_option a || starts_with "--server=" a
        || streq a "--help" || streq a "--buildinfo" || streq a "--version"
        || streq a "--").

(** A value that is there and is not a number. *)
Definition not_a_number (v : string) : bool := negb (empty v) && negb (is_number v).

(** The arguments on which [main] stops with an error, from the offending
    argument on: an unknown option, [--attach] or the separator as the last
    argument, [--attach] or [--server=] with a value that is not a number. *)
Definition offending (suf : list string) : bool :=
  match suf with
  | [] => false
  | a :: rest =>
      unknown_option a
      || (streq a "--attach"
          && match rest with
             | [] => true
             | v :: _ => not_a_number v
             end)
      || (starts_with "--server=" a
          && not_a_number (advance (String.length "--server=") a))
      || (streq a "--" && match rest with [] => true | _ :: _ => false end)
  end.

(** What a passed prefix leaves untouched: the launch command always, the
    process id without [--attach], the port without a server option. *)
Definition carried (pre : list string) (l l' : Locals) : Prop :=
  execFile l' = execFile l
  /\ execArgs l' = execArgs l
  /\ (~ In "--attach" pre -> pidDebuggee l' = pidDebuggee l)
  /\ (forallb (fun a => negb (starts_with "--server" a)) pre = true ->
      serverPort l' = serverPort l).

(** The scan runs through a prefix that [passes] and goes on with what
    follows it. *)
Definition runs_through (P : Platform) (argv0 : string) (pre : list string)
           (l l' : Locals) (t : list Event) : Prop :=
  forall suf,
    parse_args P argv0 l (pre ++ suf)
    = bind (Next l', t) (fun x => parse_args P argv0 x suf).

(** The end of a command line: nothing, or the separator with the program
    to launch and its arguments. *)
Definition launch_tail (cmd : option (string * list string)) : list string :=
  match cmd with
  | None => []
  | Some (file, args) => "--" :: file :: args
  end.

(** The scan ran to its end (or to the separator) and left [l], with the
    effects [t]. *)
Definition scanned (P : Platform) (argv : list string) (l : Locals) (t : list Event)
  : Prop :=
  parse_args P (hd "" argv) initial_locals (tl argv) = (Next l, t).

(** The [switch] constructs a variant for [l]. *)
Definition accepted (l : Locals) : bool :=
  negb (engineLogging l) || InterpreterType_eqb (interpreterType l) InterpreterVSCode.

(** The ports on which the redirect servers constructed among the effects
    [t] listen, by the modelled [Start]. *)
Definition listening_ports (t : list Event) : list Z :=
  flat_map (fun e => match e with
                     | NewIORedirectServer port _ _ => [resolve_port port]
                     | _ => []
                     end) t.

(** On [argv] the scan leaves the port [given], and the redirect server, when
    [main] constructs one, listens on [resolved]. *)
Definition resolves_to (P : Platform) (E : Engine) (argv : list string)
           (given resolved : Z) : Prop :=
  exists l t,
    scanned P argv l t
    /\ serverPort l = given
    /\ listening_ports (effects (main P E argv))
       = if accepted l && negb (InterpreterType_eqb (interpreterType l) InterpreterCLI)
         then [resolved] else [].

(** ** Sample inputs *)

Definition sample_build : BuildInfo :=
  mkBuildInfo "2020-01-01" "Linux" "x64" "0000000" "2020-01-01" "release" "HEAD"
              "1111111" "2019-12-01" "runtime" "HEAD".

Definition sample_platform : Platform :=
  mkPlatform 4242 "/tmp" "1.2.0" sample_build.

Definition other_platform : Platform :=
  mkPlatform 7 "/var/tmp" "3.0.0" sample_build.

Definition S_OK : HRESULT := 0.
Definition E_FAIL : HRESULT := -2147467259.

Definition engine_ok : Engine := mkEngine S_OK (fun _ => S_OK) S_OK.
Definition engine_initialize_fails : Engine := mkEngine E_FAIL (fun _ => S_OK) S_OK.
Definition engine_attach_fails : Engine := mkEngine S_OK (fun _ => E_FAIL) S_OK.
Definition engine_configuration_fails : Engine := mkEngine S_OK (fun _ => S_OK) E_FAIL.

(** ** Further shapes and classes *)

(** One of the three options that select the interpreter. *)
Definition sets_interpreter (a : string) : bool :=
  streq a "--interpreter=mi" || streq a "--interpreter=vscode"
  || streq a "--interpreter=cli".

Definition interpreter_option (kind : InterpreterType) : string :=
  match kind with
  | InterpreterMI => "--interpreter=mi"
  | InterpreterVSCode => "--interpreter=vscode"
  | InterpreterCLI => "--interpreter=cli"
  end.

(** The process id fits a [DWORD] and the port a [uint16_t]. *)
Definition in_range (l : Locals) : Prop :=
  0 <= pidDebuggee l < 2 ^ 32 /\ 0 <= serverPort l < 2 ^ 16.

Definition is_stdout (e : Event) : bool :=
  match e with
  | Stdout _ => true
  | _ => false
  end.

(** An option whose effect takes a value from the platform. *)
Definition reads_platform (a : string) : bool :=
  streq a "--log" || streq a "--version" || streq a "--buildinfo".

(** No path separator in the text. *)
Fixpoint no_slash (s : string) : bool :=
  match s with
  | String c r => negb (Ascii.eqb c "/") && no_slash r
  | EmptyString => true
  end.


(** The steps of the bootstrap: constructions, calls on the engine and on
    the variant that bind the two, the command loop. *)
Definition is_milestone (e : Event) : bool :=
  is_construction e || is_engine_call e || is_command_loop e.

(** The effects of a scan: settings of the environment, then nothing more
    when it runs to its end, a banner on the output stream when it stops with
    success, one message on the error stream when it stops with failure. *)
Definition scan_shape (m : M Locals) : Prop :=
  exists t s,
    snd m = (t ++ s)%list
    /\ forallb is_setenv t = true
    /\ match fst m with
       | Next _ => s = []
       | Return code =>
           (code = EXIT_SUCCESS /\ s <> [] /\ forallb is_stdout s = true)
           \/ (code = EXIT_FAILURE /\ exists msg, s = [Stderr msg])
       end.

(** The three kinds of runs of [main]. *)
Definition banner_run (r : Z * list Event) : Prop :=
  exit_status r = EXIT_SUCCESS
  /\ filter is_stdout (effects r) <> []
  /\ filter is_stderr (effects r) = []
  /\ filter is_milestone (effects r) = [].

Definition error_run (r : Z * list Event) : Prop :=
  exit_status r = EXIT_FAILURE
  /\ (exists msg, filter is_stderr (effects r) = [Stderr msg])
  /\ filter is_stdout (effects r) = []
  /\ filter is_command_loop (effects r) = [].

Definition session_run (r : Z * list Event) : Prop :=
  exit_status r = EXIT_SUCCESS
  /\ filter is_command_loop (effects r) = [CommandLoop]
  /\ last (effects r) CinTieNull = CommandLoop
  /\ filter is_stderr (effects r) = []
  /\ filter is_stdout (effects r) = [].

(** * Properties *)

(** ** The C library pieces *)

Lemma streq_eq (a b : string) : streq a b = true -> a = b.
Proof. unfold streq. apply String.eqb_eq. Qed.

Lemma streq_refl (a : string) : streq a a = true.
Proof. unfold streq. apply String.eqb_refl. Qed.

Lemma starts_with_advance (pre s : string) :
  starts_with pre s = true -> s = (pre ++ advance (String.length pre) s)%string.
Proof.
  unfold starts_with. revert s.
  induction pre as [|c pre IH]; intros s H.
  - reflexivity.
  - destruct s as [|d s]; cbn in H; [discriminate|].
    destruct (Ascii.ascii_dec c d) as [->|]; [|discriminate].
    cbn. f_equal. now apply IH.
Qed.

Lemma digits_rest (s : string) :
  forall acc, empty (snd (digits acc s)) = all_digits s.
Proof.
  induction s as [|c r IH]; intros acc; cbn.
  - reflexivity.
  - unfold isdigit. destruct (digit_val c); cbn; [apply IH | reflexivity].
Qed.

Lemma strtoul_rest (v : string) :
  snd (strtoul v)
  = let body := snd (skip_sign (skip_space v)) in
    if starts_with_digit body then snd (digits 0 body) else v.
Proof.
  unfold strtoul.
  destruct (skip_sign (skip_space v)) as [neg body]; cbn [snd].
  destruct (starts_with_digit body); [|reflexivity].
  destruct (digits 0 body) as [n r]; cbn [snd].
  destruct (ULONG_MAX <? n); [reflexivity|].
  destruct neg; reflexivity.
Qed.

Lemma skip_space_empty (v : string) : empty v = true -> skip_space v = v.
Proof. destruct v; [reflexivity | discriminate]. Qed.

(** The values that [strtoul] consumes whole are the numbers and, because
    [endptr] is then [nptr] itself, the empty string. *)
Lemma converts_spec (v : string) : converts v = (empty v || is_number v)%bool.
Proof.
  unfold converts, is_number. rewrite strtoul_rest. cbv zeta.
  destruct (starts_with_digit (snd (skip_sign (skip_space v)))) eqn:D.
  - rewrite digits_rest. destruct v; [discriminate D | reflexivity].
  - cbn. now rewrite orb_false_r.
Qed.

Lemma is_number_converts (v : string) : is_number v = true -> converts v = true.
Proof. intros H. rewrite converts_spec, H. apply orb_true_r. Qed.

Lemma not_a_number_converts (v : string) :
  not_a_number v = true -> converts v = false.
Proof.
  unfold not_a_number. intros H. apply andb_prop in H. destruct H as [He Hn].
  rewrite converts_spec. apply negb_true_iff in He, Hn. now rewrite He, Hn.
Qed.

(** ** The exit monad *)

Lemma bind_Next {A B} (a : A) (t : list Event) (k : A -> M B) :
  bind (Next a, t) k = (fst (k a), (t ++ snd (k a))%list).
Proof. unfold bind. now destruct (k a). Qed.

Lemma bind_Return {A B} (c : Z) (t : list Event) (k : A -> M B) :
  bind (Return c, t) k = (Return c, t).
Proof. reflexivity. Qed.

Lemma snd_bind {A B} (m : M A) (k : A -> M B) :
  snd (bind m k)
  = (snd m ++ match fst m with Next a => snd (k a) | Return _ => [] end)%list.
Proof.
  destruct m as [[a|c] t]; cbn.
  - now destruct (k a).
  - now rewrite app_nil_r.
Qed.

Lemma run_bind_Next {A} (a : A) (t : list Event) (k : A -> M Z) :
  run (bind (Next a, t) k) = (fst (run (k a)), (t ++ snd (run (k a)))%list).
Proof. unfold bind, run. now destruct (k a) as [[?|?] ?]. Qed.

(** Induction over the arguments two at a time, as the scan consumes them. *)
Lemma scan_induction (R : list string -> Prop) :
  R [] ->
  (forall a rest,
      R rest ->
      (forall v rest', rest = v :: rest' -> R rest') ->
      R (a :: rest)) ->
  forall args, R args.
Proof.
  intros H0 Hstep args.
  enough (R args /\ forall a, R (a :: args)) by tauto.
  induction args as [|b args [IH1 IH2]].
  - split; [assumption|]. intros a. apply Hstep; [assumption|]. discriminate.
  - split; [apply IH2|]. intros a. apply Hstep; [apply IH2|].
    intros v rest' [= -> ->]. assumption.
Qed.

(** ** The argument scan *)

(** One test of the scan's chain of comparisons on the argument [a], in the
    order of the source. *)
Ltac split_test a :=
  match goal with
  | |- context [streq a "--attach"] => destruct (streq a "--attach") eqn:?
  | |- context [streq a "--interpreter=mi"] =>
      destruct (streq a "--interpreter=mi") eqn:?
  | |- context [streq a "--interpreter=vscode"] =>
      destruct (streq a "--interpreter=vscode") eqn:?
  | |- context [streq a "--interpreter=cli"] =>
      destruct (streq a "--interpreter=cli") eqn:?
  | |- context [streq a "--engineLogging"] =>
      destruct (streq a "--engineLogging") eqn:?
  | |- context [starts_with "--engineLogging=" a] =>
      destruct (starts_with "--engineLogging=" a) eqn:?
  | |- context [streq a "--help"] => destruct (streq a "--help") eqn:?
  | |- context [streq a "--buildinfo"] => destruct (streq a "--buildinfo") eqn:?
  | |- context [streq a "--version"] => destruct (streq a "--version") eqn:?
  | |- context [streq a "--log"] => destruct (streq a "--log") eqn:?
  | |- context [starts_with "--log=" a] => destruct (starts_with "--log=" a) eqn:?
  | |- context [streq a "--server"] => destruct (streq a "--server") eqn:?
  | |- context [starts_with "--server=" a] =>
      destruct (starts_with "--server=" a) eqn:?
  | |- context [streq a "--"] => destruct (streq a "--") eqn:?
  end.

(** The fields that a passed argument leaves alone, from those that the
    rest of the prefix leaves alone. *)
Ltac carry_over Hc :=
  let Hf := fresh in
  let Ha := fresh in
  let Hpid := fresh in
  let Hs := fresh in
  let Hn := fresh in
  let Hb := fresh in
  destruct Hc as (Hf & Ha & Hpid & Hs);
  repeat split;
  [ now rewrite Hf
  | now rewrite Ha
  | intros Hn; rewrite Hpid; [reflexivity | intros ?; apply Hn; now right]
  | intros Hb; cbn [forallb] in Hb; apply andb_prop in Hb;
    destruct Hb as [Hb1 Hb2]; first [discriminate Hb1 | now rewrite (Hs Hb2)] ].

Section ScanFacts.

Variable P : Platform.
Variable argv0 : string.

Lemma scan_effects (args : list string) :
  forall l, forallb is_scan_effect (snd (parse_args P argv0 l args)) = true.
Proof.
  induction args as [|a rest IHrest IHtail] using scan_induction; intros l.
  - reflexivity.
  - cbn [parse_args].
    repeat (split_test a; [try apply IHrest; try reflexivity|]);
      try reflexivity; try apply IHrest.
    + destruct rest as [|v rest']; [reflexivity|].
      destruct (strtoul v) as [n [|c err]]; [|reflexivity].
      now apply (IHtail v rest').
    + rewrite snd_bind. cbn. apply IHrest.
    + rewrite snd_bind. cbn. apply IHrest.
    + destruct (strtoul _) as [n [|c err]]; [apply IHrest | reflexivity].
    + destruct rest; reflexivity.
Qed.

(** A scan that runs to its end has set environment variables and done
    nothing else. *)
Lemma scan_next_effects (args : list string) :
  forall l l' t,
    parse_args P argv0 l args = (Next l', t) -> forallb is_setenv t = true.
Proof.
  induction args as [|a rest IHrest IHtail] using scan_induction;
    intros l l' t.
  - cbn. now intros [= _ <-].
  - cbn [parse_args].
    repeat (split_test a; [try apply IHrest; try discriminate|]);
      try discriminate.
    + destruct rest as [|v rest']; [discriminate|].
      destruct (strtoul v) as [n [|c err]]; [|discriminate].
      now apply (IHtail v rest').
    + unfold emit, bind.
      destruct (parse_args P argv0 l rest) as [[l1|c1] t1] eqn:E1;
        intros [= <- <-]. cbn. exact (IHrest _ _ _ E1).
    + unfold emit, bind.
      destruct (parse_args P argv0 l rest) as [[l1|c1] t1] eqn:E1;
        intros [= <- <-]. cbn. exact (IHrest _ _ _ E1).
    + destruct (strtoul _) as [n [|c err]]; [apply IHrest | discriminate].
    + destruct rest; [discriminate|]. now intros [= _ <-].
Qed.

Lemma runs_through_plain (a : string) (rest : list string)
      (f : Locals -> Locals) (l l' : Locals) (t : list Event) :
  (forall suf, parse_args P argv0 l ((a :: rest) ++ suf)
               = parse_args P argv0 (f l) (rest ++ suf)) ->
  runs_through P argv0 rest (f l) l' t ->
  runs_through P argv0 (a :: rest) l l' t.
Proof. intros Ha Hr suf. now rewrite Ha, Hr. Qed.

Lemma runs_through_setenv (a : string) (rest : list string) (value : string)
      (l l' : Locals) (t : list Event) :
  (forall suf, parse_args P argv0 l ((a :: rest) ++ suf)
               = (emit (Setenv "LOG_OUTPUT" value) ;;
                  parse_args P argv0 l (rest ++ suf))) ->
  runs_through P argv0 rest l l' t ->
  runs_through P argv0 (a :: rest) l l' (Setenv "LOG_OUTPUT" value :: t).
Proof.
  intros Ha Hr suf. rewrite Ha, Hr. unfold emit, bind.
  now destruct (parse_args P argv0 l' suf).
Qed.

Ltac plain_constant Hplain f :=
  match type of Hplain with
  | streq ?a _ = true =>
      apply streq_eq in Hplain; subst a;
      match goal with
      | IH : forall l, passes ?rest = true -> _, Hp : passes ?rest = true,
        l : Locals |- _ =>
          let l' := fresh "l'" in
          let t := fresh "t" in
          let Hr := fresh "Hr" in
          let Ht := fresh "Ht" in
          let Hc := fresh "Hc" in
          destruct (IH (f l) Hp) as (l' & t & Hr & Ht & Hc);
          exists l', t; split;
          [ apply (runs_through_plain _ _ f); [intros ?; reflexivity | exact Hr]
          | split; [exact Ht | carry_over Hc] ]
      end
  end.

Lemma passes_runs_through (pre : list string) :
  forall l, passes pre = true ->
  exists l' t,
    runs_through P argv0 pre l l' t /\ forallb is_setenv t = true /\ carried pre l l'.
Proof.
  induction pre as [|a rest IHrest IHtail] using scan_induction; intros l H.
  - exists l, []. split; [|now repeat split].
    intros suf. cbn [app]. unfold bind.
    now destruct (parse_args P argv0 l suf).
  - cbn [passes] in H. destruct (streq a "--attach") eqn:Ea.
    + apply streq_eq in Ea. subst a.
      destruct rest as [|v rest']; [discriminate|].
      apply andb_prop in H. destruct H as [Hv Hp].
      apply is_number_converts in Hv.
      destruct (IHtail v rest' eq_refl
                  (set_pidDebuggee (to_DWORD (fst (strtoul v))) l) Hp)
        as (l' & t & Hr & Ht & Hf & Ha & _ & Hs).
      exists l', t. split; [|split; [assumption|]].
      * intros suf. cbn [app parse_args]. rewrite streq_refl.
        unfold converts in Hv. destruct (strtoul v) as [n err].
        cbn [fst snd] in *. destruct err; [apply Hr | discriminate].
      * repeat split; try assumption.
        -- intros Hn. exfalso. apply Hn. now left.
        -- intros Hb. cbn [forallb] in Hb.
           apply andb_prop in Hb. destruct Hb as [_ Hb].
           apply andb_prop in Hb. destruct Hb as [_ Hb].
           now rewrite (Hs Hb).
    + apply andb_prop in H. destruct H as [Hplain Hp].
      unfold plain_option in Hplain.
      repeat (apply orb_prop in Hplain; destruct Hplain as [Hplain|Hplain]).
      * plain_constant Hplain (set_interpreterType InterpreterMI).
      * plain_constant Hplain (set_interpreterType InterpreterVSCode).
      * plain_constant Hplain (set_interpreterType InterpreterCLI).
      * plain_constant Hplain (set_engineLogging true).
      * remember (advance (String.length "--engineLogging=") a) as r eqn:Er.
        apply starts_with_advance in Hplain. rewrite <- Er in Hplain.
        clear Er. subst a.
        destruct (IHrest (set_logFilePath r (set_engineLogging true l)) Hp)
          as (l' & t & Hr & Ht & Hc).
        exists l', t. split; [|split; [exact Ht|]].
        -- apply (runs_through_plain _ _
                    (fun l => set_logFilePath r (set_engineLogging true l)));
             [intros suf; cbn; now destruct r | exact Hr].
        -- carry_over Hc.
      * apply streq_eq in Hplain. subst a.
        destruct (IHrest l Hp) as (l' & t & Hr & Ht & Hc).
        exists l', (Setenv "LOG_OUTPUT" (log_output_default P argv0) :: t).
        split; [|split; [exact Ht|]].
        -- apply runs_through_setenv; [intros suf; reflexivity | exact Hr].
        -- carry_over Hc.
      * remember (advance (String.length "--log=") a) as r eqn:Er.
        apply starts_with_advance in Hplain. rewrite <- Er in Hplain.
        clear Er. subst a.
        destruct (IHrest l Hp) as (l' & t & Hr & Ht & Hc).
        exists l', (Setenv "LOG_OUTPUT" r :: t).
        split; [|split; [exact Ht|]].
        -- apply runs_through_setenv; [intros suf; cbn; now destruct r | exact Hr].
        -- carry_over Hc.
      * plain_constant Hplain (set_serverPort DEFAULT_SERVER_PORT).
      * apply andb_prop in Hplain. destruct Hplain as [Hplain Hv].
        apply is_number_converts in Hv.
        remember (advance (String.length "--server=") a) as r eqn:Er.
        apply starts_with_advance in Hplain. rewrite <- Er in Hplain.
        clear Er. subst a.
        destruct (IHrest (set_serverPort (to_uint16 (fst (strtoul r))) l) Hp)
          as (l' & t & Hr & Ht & Hc).
        exists l', t. split; [|split; [exact Ht|]].
        -- apply (runs_through_plain _ _
                    (fun l => set_serverPort (to_uint16 (fst (strtoul r))) l));
             [|exact Hr].
           intros suf. cbn. unfold converts in Hv.
           replace (prefix "" r) with true by now destruct r.
           destruct (strtoul r) as [n err]. cbn [fst snd] in *.
           destruct err; [reflexivity | discriminate].
        -- carry_over Hc.
Qed.

(** From an offending argument on, the scan stops with one message on the
    error stream and the failure status. *)
Lemma offending_exit (suf : list string) (l : Locals) :
  offending suf = true ->
  exists msg, parse_args P argv0 l suf = (Return EXIT_FAILURE, [Stderr msg]).
Proof.
  destruct suf as [|a rest]; [discriminate|]. unfold offending. intros H.
  repeat (apply orb_prop in H; destruct H as [H|H]).
  - unfold unknown_option, plain_option in H. apply negb_true_iff in H.
    repeat match goal with
           | E : (_ || _)%bool = false |- _ =>
               apply orb_false_elim in E; destruct E
           end.
    cbn [parse_args].
    repeat match goal with
           | E : ?c = false |- context [if ?c then _ else _] => rewrite E
           end.
    eexists. reflexivity.
  - apply andb_prop in H. destruct H as [Ha H].
    apply streq_eq in Ha. subst a. cbn [parse_args]. rewrite streq_refl.
    destruct rest as [|v rest']; [eexists; reflexivity|].
    apply not_a_number_converts in H. unfold converts in H.
    destruct (strtoul v) as [n err]. cbn [snd] in H.
    destruct err; [discriminate | eexists; reflexivity].
  - apply andb_prop in H. destruct H as [Ha H].
    apply not_a_number_converts in H. unfold converts in H.
    remember (advance (String.length "--server=") a) as r eqn:Er.
    apply starts_with_advance in Ha. rewrite <- Er in Ha. clear Er. subst a.
    cbn. replace (prefix "" r) with true by now destruct r.
    destruct (strtoul r) as [n err]. cbn [snd] in H.
    destruct err; [discriminate | eexists; reflexivity].
  - apply andb_prop in H. destruct H as [Ha H].
    apply streq_eq in Ha. subst a.
    destruct rest; [eexists; reflexivity | discriminate].
Qed.

Lemma runs_through_end (pre : list string) (l l' : Locals) (t : list Event) :
  runs_through P argv0 pre l l' t -> parse_args P argv0 l pre = (Next l', t).
Proof.
  intros H. specialize (H []). rewrite app_nil_r in H. rewrite H.
  cbn. now rewrite app_nil_r.
Qed.

Lemma runs_through_launch (pre : list string) (l l' : Locals) (t : list Event)
      (file : string) (args : list string) :
  runs_through P argv0 pre l l' t ->
  parse_args P argv0 l (pre ++ "--" :: file :: args)
  = (Next (push_back_execArgs args (set_execFile file l')), t).
Proof. intros H. rewrite H. cbn. now rewrite app_nil_r. Qed.

Lemma runs_through_offending (pre suf : list string) (l l' : Locals)
      (t : list Event) :
  runs_through P argv0 pre l l' t ->
  offending suf = true ->
  exists msg,
    parse_args P argv0 l (pre ++ suf)
    = (Return EXIT_FAILURE, (t ++ [Stderr msg])%list).
Proof.
  intros H Ho. destruct (offending_exit suf l' Ho) as [msg Hm].
  exists msg. rewrite H. unfold bind. now rewrite Hm.
Qed.

(** A command line made of a prefix that passes and of a launch tail is
    scanned to its end. *)
Lemma passes_scan_from (pre : list string) (cmd : option (string * list string))
      (l : Locals) :
  passes pre = true ->
  exists l' t,
    parse_args P argv0 l (pre ++ launch_tail cmd) = (Next l', t)
    /\ forallb is_setenv t = true
    /\ (~ In "--attach" pre -> pidDebuggee l' = pidDebuggee l)
    /\ (forallb (fun a => negb (starts_with "--server" a)) pre = true ->
        serverPort l' = serverPort l).
Proof.
  intros Hp.
  destruct (passes_runs_through pre l Hp) as (l1 & t & Hr & Ht & _ & _ & Hpid & Hs).
  destruct cmd as [[file args]|]; cbn [launch_tail].
  - exists (push_back_execArgs args (set_execFile file l1)), t.
    rewrite (runs_through_launch _ _ _ _ file args Hr). now repeat split.
  - exists l1, t. rewrite app_nil_r.
    rewrite (runs_through_end _ _ _ _ Hr). now repeat split.
Qed.

End ScanFacts.

(** ** From the scan to the session *)

Lemma main_scanned (P : Platform) (E : Engine) (argv : list string)
      (l : Locals) (t : list Event) :
  scanned P argv l t ->
  main P E argv
  = (fst (run (session E l)), CinTieNull :: (t ++ snd (run (session E l)))%list).
Proof.
  unfold scanned, main, main_body. intros ->.
  unfold emit. rewrite run_bind_Next, run_bind_Next. reflexivity.
Qed.

Lemma main_stopped (P : Platform) (E : Engine) (argv : list string)
      (code : Z) (t : list Event) :
  parse_args P (hd "" argv) initial_locals (tl argv) = (Return code, t) ->
  main P E argv = (code, CinTieNull :: t).
Proof.
  unfold main, main_body. intros ->.
  unfold emit. rewrite run_bind_Next. reflexivity.
Qed.

Lemma scanned_effects (P : Platform) (argv : list string)
      (l : Locals) (t : list Event) :
  scanned P argv l t -> forallb is_scan_effect t = true.
Proof.
  unfold scanned. intros H.
  pose proof (scan_effects P (hd "" argv) (tl argv) initial_locals) as S.
  now rewrite H in S.
Qed.

Lemma scanned_setenv (P : Platform) (argv : list string)
      (l : Locals) (t : list Event) :
  scanned P argv l t -> forallb is_setenv t = true.
Proof. unfold scanned. apply scan_next_effects. Qed.

(** The scan has no effect of a class that excludes its three kinds. *)
Lemma filter_scan_effects (p : Event -> bool) (t : list Event) :
  (forall e, is_scan_effect e = true -> p e = false) ->
  forallb is_scan_effect t = true ->
  filter p t = [].
Proof.
  intros Hp. induction t as [|e t IH]; cbn; [reflexivity|].
  intros H. apply andb_prop in H. destruct H as [He Ht].
  rewrite (Hp e He). now apply IH.
Qed.

Lemma none_filter (p : Event -> bool) (t : list Event) :
  filter p t = [] -> none p t.
Proof.
  unfold none. induction t as [|e t IH]; cbn; [reflexivity|].
  destruct (p e); [discriminate|]. exact IH.
Qed.

Lemma none_In (p : Event -> bool) (t : list Event) (e : Event) :
  none p t -> In e t -> p e = false.
Proof.
  unfold none. intros H Hin. rewrite forallb_forall in H.
  apply H in Hin. now apply negb_true_iff in Hin.
Qed.

Ltac scan_class := intros [] ?; solve [reflexivity | discriminate].

(** Unfold the session on locals given field by field, and decide its
    tests. *)
Ltac session_cases :=
  unfold session, select_protocol, start_redirect, attach,
    debugger_Initialize, debugger_Attach, debugger_ConfigurationDone,
    when, LOGI, fprintf_stderr, emit, exit_with, ret;
  cbn [pidDebuggee interpreterType engineLogging logFilePath serverPort
       execFile execArgs Initialize_result Attach_result
       ConfigurationDone_result];
  repeat (cbn;
          match goal with
          | |- context [if ?c then _ else _] => destruct c eqn:?
          | |- context [match ?m with InterpreterMI => _ | _ => _ end] =>
              destruct m eqn:?
          end);
  cbn.

(** * The session bootstrap *)

(** C1 (as amended): with a process id other than zero, [main] calls
    [Initialize], [Attach] with that id and [ConfigurationDone] on the engine,
    in this order and once each; when [ConfigurationDone] returns a failure,
    the process exits with the failure status and the command loop is never
    called; when it succeeds, the command loop is called after the three and
    the process exits with success. *)
Theorem attach_sequence (P : Platform) (E : Engine) (argv : list string)
        (l : Locals) (t : list Event) :
  scanned P argv l t ->
  accepted l = true ->
  pidDebuggee l <> 0 ->
  filter is_lifecycle (effects (main P E argv))
  = [Initialize; Attach (pidDebuggee l); ConfigurationDone]
  /\ if FAILED (ConfigurationDone_result E)
     then exit_status (main P E argv) = EXIT_FAILURE
          /\ none is_command_loop (effects (main P E argv))
     else exit_status (main P E argv) = EXIT_SUCCESS
          /\ filter (fun e => is_lifecycle e || is_command_loop e)
                    (effects (main P E argv))
             = [Initialize; Attach (pidDebuggee l); ConfigurationDone; CommandLoop].
Proof.
  intros Hs Ha Hp. rewrite (main_scanned P E argv l t Hs).
  apply scanned_effects in Hs.
  unfold effects, exit_status, none. cbn [fst snd].
  assert (T1 : filter is_lifecycle t = [])
    by (apply filter_scan_effects; [scan_class | exact Hs]).
  assert (T2 : filter (fun e => is_lifecycle e || is_command_loop e) t = [])
    by (apply filter_scan_effects; [scan_class | exact Hs]).
  assert (T3 : forallb (fun e => negb (is_command_loop e)) t = true)
    by (apply none_filter, filter_scan_effects; [scan_class | exact Hs]).
  cbn [filter forallb is_lifecycle is_command_loop negb orb andb].
  rewrite !filter_app, !forallb_app, T1, T2, T3. cbn [app andb].
  destruct l as [pid mode elog path port file args].
  destruct E as [hi ha hc].
  unfold accepted in Ha. cbn in Ha, Hp |- *.
  assert (Hz : (pid =? 0) = false) by now apply Z.eqb_neq.
  destruct (FAILED hc) eqn:Hf; session_cases; try discriminate;
    try (rewrite Hz in *; discriminate);
    repeat split; congruence.
Qed.

Lemma attach_sequence_witness :
  (filter is_lifecycle
     (effects (main sample_platform engine_configuration_fails
                    ["netcoredbg"; "--attach"; "1234"]))
   = [Initialize; Attach 1234; ConfigurationDone]
   /\ exit_status (main sample_platform engine_configuration_fails
                        ["netcoredbg"; "--attach"; "1234"]) = EXIT_FAILURE
   /\ none is_command_loop
        (effects (main sample_platform engine_configuration_fails
                       ["netcoredbg"; "--attach"; "1234"])))
  /\ (filter is_lifecycle
        (effects (main sample_platform engine_ok
                       ["netcoredbg"; "--interpreter=vscode"; "--attach"; "77"]))
      = [Initialize; Attach 77; ConfigurationDone]
      /\ exit_status (main sample_platform engine_ok
                           ["netcoredbg"; "--interpreter=vscode"; "--attach"; "77"])
         = EXIT_SUCCESS
      /\ filter (fun e => is_lifecycle e || is_command_loop e)
                (effects (main sample_platform engine_ok
                               ["netcoredbg"; "--interpreter=vscode"; "--attach"; "77"]))
         = [Initialize; Attach 77; ConfigurationDone; CommandLoop]).
Proof.
  split.
  - apply (attach_sequence sample_platform engine_configuration_fails
             ["netcoredbg"; "--attach"; "1234"]
             (set_pidDebuggee 1234 initial_locals) []).
    + reflexivity.
    + reflexivity.
    + cbn. discriminate.
  - apply (attach_sequence sample_platform engine_ok
             ["netcoredbg"; "--interpreter=vscode"; "--attach"; "77"]
             (set_pidDebuggee 77
                (set_interpreterType InterpreterVSCode initial_locals)) []).
    + reflexivity.
    + reflexivity.
    + cbn. discriminate.
Defined.

(** C1 (as stated) fails: [Initialize] returns a failure, and [main] goes on
    to the command loop and exits with success. *)
Lemma initialize_failure_ignored :
  FAILED (Initialize_result engine_initialize_fails) = true
  /\ exit_status (main sample_platform engine_initialize_fails
                       ["netcoredbg"; "--attach"; "1234"]) = EXIT_SUCCESS
  /\ In CommandLoop
        (effects (main sample_platform engine_initialize_fails
                       ["netcoredbg"; "--attach"; "1234"])).
Proof.
  split; [reflexivity|]. split; [reflexivity|].
  cbv. tauto.
Qed.

(** The same with a failure of [Attach]. *)
Example attach_failure_ignored :
  FAILED (Attach_result engine_attach_fails 1234) = true
  /\ main sample_platform engine_attach_fails ["netcoredbg"; "--attach"; "1234"]
     = main sample_platform engine_ok ["netcoredbg"; "--attach"; "1234"]
  /\ exit_status (main sample_platform engine_attach_fails
                       ["netcoredbg"; "--attach"; "1234"]) = EXIT_SUCCESS.
Proof. repeat split. Qed.

(** What [Initialize] and [Attach] return has no part in the outcome: two
    engines that agree on [ConfigurationDone] give the same run. *)
Lemma lifecycle_results_dropped (P : Platform) (E E' : Engine)
      (argv : list string) :
  ConfigurationDone_result E = ConfigurationDone_result E' ->
  main P E argv = main P E' argv.
Proof.
  destruct E as [hi ha hc], E' as [hi' ha' hc']. cbn. intros <-.
  reflexivity.
Qed.

(** * Engine logging and the interpreter mode *)

Lemma In_setenv (t : list Event) (e : Event) :
  forallb is_setenv t = true -> In e t -> is_setenv e = true.
Proof. intros H Hin. rewrite forallb_forall in H. now apply H. Qed.

(** Rewrite [main] on scanned arguments into the effects of the scan followed
    by those of the session. *)
Ltac by_session Hs :=
  rewrite (main_scanned _ _ _ _ _ Hs);
  unfold effects, exit_status; cbn [fst snd].

(** C2: with engine logging requested, the MI and CLI modes write the error
    to the error stream and exit with the failure status before any call is
    made on the engine (the engine object is declared, nothing is called on
    it, and no variant is constructed); the VSCode mode constructs its
    variant and enables engine logging on it with the log path. *)
Theorem engine_logging_guard (P : Platform) (E : Engine) (argv : list string)
        (l : Locals) (t : list Event) :
  scanned P argv l t ->
  engineLogging l = true ->
  match interpreterType l with
  | InterpreterVSCode =>
      filter is_variant_logging (effects (main P E argv))
      = [NewProtocol InterpreterVSCode; EngineLogging (logFilePath l)]
      /\ ~ In (Stderr (engine_logging_unsupported ++ nl)) (effects (main P E argv))
  | InterpreterMI | InterpreterCLI =>
      exit_status (main P E argv) = EXIT_FAILURE
      /\ (exists selected,
            effects (main P E argv)
            = CinTieNull
                :: (t ++ [LogI "Start logging"; NewManagedDebugger; LogI selected;
                          Stderr (engine_logging_unsupported ++ nl);
                          LogI engine_logging_unsupported])%list)
      /\ none is_engine_call (effects (main P E argv))
  end.
Proof.
  intros Hs Hl.
  pose proof (scanned_setenv _ _ _ _ Hs) as Ht.
  pose proof (scanned_effects _ _ _ _ Hs) as Hscan.
  assert (T1 : filter is_variant_logging t = [])
    by (apply filter_scan_effects; [scan_class | exact Hscan]).
  assert (T2 : forallb (fun e => negb (is_engine_call e)) t = true)
    by (apply none_filter, filter_scan_effects; [scan_class | exact Hscan]).
  by_session Hs. unfold none.
  cbn [filter forallb is_variant_logging is_engine_call negb andb].
  rewrite filter_app, forallb_app, T1, T2. cbn [app andb].
  destruct l as [pid mode elog path port file args].
  destruct E as [hi ha hc]. cbn in Hl. subst elog.
  cbn [interpreterType logFilePath].
  destruct mode.
  - cbn. repeat split. now exists "InterpreterMI selected".
  - split.
    + session_cases; reflexivity.
    + intros [Hin|Hin]; [discriminate|].
      apply in_app_or in Hin. destruct Hin as [Hin|Hin].
      * apply (In_setenv _ _ Ht) in Hin. discriminate.
      * revert Hin. session_cases; intros Hin;
          repeat (destruct Hin as [Hin|Hin]; [discriminate Hin|]);
          exact Hin.
  - cbn. repeat split. now exists "InterpreterCLI selected".
Qed.

Lemma engine_logging_guard_witness :
  (exit_status (main sample_platform engine_ok
                     ["netcoredbg"; "--interpreter=cli"; "--engineLogging"])
   = EXIT_FAILURE
   /\ (exists selected,
         effects (main sample_platform engine_ok
                       ["netcoredbg"; "--interpreter=cli"; "--engineLogging"])
         = CinTieNull
             :: ([] ++ [LogI "Start logging"; NewManagedDebugger; LogI selected;
                        Stderr (engine_logging_unsupported ++ nl);
                        LogI engine_logging_unsupported])%list)
   /\ none is_engine_call
        (effects (main sample_platform engine_ok
                       ["netcoredbg"; "--interpreter=cli"; "--engineLogging"])))
  /\ (filter is_variant_logging
        (effects (main sample_platform engine_ok
                       ["netcoredbg"; "--engineLogging=/tmp/engine.log";
                        "--interpreter=vscode"]))
      = [NewProtocol InterpreterVSCode; EngineLogging "/tmp/engine.log"]
      /\ ~ In (Stderr (engine_logging_unsupported ++ nl))
              (effects (main sample_platform engine_ok
                             ["netcoredbg"; "--engineLogging=/tmp/engine.log";
                              "--interpreter=vscode"]))).
Proof.
  split.
  - apply (engine_logging_guard sample_platform engine_ok
             ["netcoredbg"; "--interpreter=cli"; "--engineLogging"]
             (set_engineLogging true
                (set_interpreterType InterpreterCLI initial_locals)) []).
    + reflexivity.
    + reflexivity.
  - apply (engine_logging_guard sample_platform engine_ok
             ["netcoredbg"; "--engineLogging=/tmp/engine.log";
              "--interpreter=vscode"]
             (set_interpreterType InterpreterVSCode
                (set_logFilePath "/tmp/engine.log"
                   (set_engineLogging true initial_locals))) []).
    + reflexivity.
    + reflexivity.
Defined.

(** * The redirect server *)

(** The redirect servers that a session constructs: none in CLI mode and
    when the variant is refused, one otherwise, on the scanned port and with
    the two StdOut callbacks. *)
Lemma session_servers (E : Engine) (l : Locals) :
  filter is_server (snd (run (session E l)))
  = if accepted l && negb (InterpreterType_eqb (interpreterType l) InterpreterCLI)
    then [NewIORedirectServer (serverPort l) redirect_StdOut redirect_StdOut]
    else [].
Proof.
  destruct l as [pid mode elog path port file args].
  destruct E as [hi ha hc]. unfold accepted.
  cbn [interpreterType engineLogging serverPort].
  destruct mode, elog; session_cases; reflexivity.
Qed.

Lemma main_servers (P : Platform) (E : Engine) (argv : list string)
      (l : Locals) (t : list Event) :
  scanned P argv l t ->
  filter is_server (effects (main P E argv))
  = if accepted l && negb (InterpreterType_eqb (interpreterType l) InterpreterCLI)
    then [NewIORedirectServer (serverPort l) redirect_StdOut redirect_StdOut]
    else [].
Proof.
  intros Hs. pose proof (scanned_effects _ _ _ _ Hs) as Hscan.
  by_session Hs. cbn [filter is_server]. rewrite filter_app.
  rewrite (filter_scan_effects is_server t); [|scan_class|exact Hscan].
  apply session_servers.
Qed.

(** C3 (as amended): in CLI mode no redirect server is constructed, whatever
    the server port; in MI mode without engine logging and in VSCode mode
    exactly one is constructed, on the scanned port; in MI mode with engine
    logging, where [main] stops before it constructs the variant, none is. *)
Theorem redirect_server_by_mode (P : Platform) (E : Engine) (argv : list string)
        (l : Locals) (t : list Event) :
  scanned P argv l t ->
  filter is_server (effects (main P E argv))
  = match interpreterType l with
    | InterpreterCLI => []
    | InterpreterVSCode =>
        [NewIORedirectServer (serverPort l) redirect_StdOut redirect_StdOut]
    | InterpreterMI =>
        if engineLogging l then []
        else [NewIORedirectServer (serverPort l) redirect_StdOut redirect_StdOut]
    end.
Proof.
  intros Hs. rewrite (main_servers P E argv l t Hs). unfold accepted.
  destruct (interpreterType l), (engineLogging l); reflexivity.
Qed.

Lemma redirect_server_by_mode_witness :
  filter is_server
    (effects (main sample_platform engine_ok
                   ["netcoredbg"; "--server=4712"; "--interpreter=cli"]))
  = []
  /\ filter is_server
       (effects (main sample_platform engine_ok ["netcoredbg"; "--server=4712"]))
     = [NewIORedirectServer 4712 redirect_StdOut redirect_StdOut]
  /\ filter is_server
       (effects (main sample_platform engine_ok
                      ["netcoredbg"; "--interpreter=vscode"; "--engineLogging"]))
     = [NewIORedirectServer 0 redirect_StdOut redirect_StdOut].
Proof.
  split; [|split].
  - apply (redirect_server_by_mode sample_platform engine_ok
             ["netcoredbg"; "--server=4712"; "--interpreter=cli"]
             (set_interpreterType InterpreterCLI
                (set_serverPort 4712 initial_locals)) []).
    reflexivity.
  - apply (redirect_server_by_mode sample_platform engine_ok
             ["netcoredbg"; "--server=4712"]
             (set_serverPort 4712 initial_locals) []).
    reflexivity.
  - apply (redirect_server_by_mode sample_platform engine_ok
             ["netcoredbg"; "--interpreter=vscode"; "--engineLogging"]
             (set_engineLogging true
                (set_interpreterType InterpreterVSCode initial_locals)) []).
    reflexivity.
Defined.

(** C3 (as stated) fails: the mode is MI, and with engine logging requested
    [main] exits before it constructs a redirect server. *)
Lemma mi_engine_logging_no_server :
  scanned sample_platform ["netcoredbg"; "--engineLogging"]
          (set_engineLogging true initial_locals) []
  /\ interpreterType (set_engineLogging true initial_locals) = InterpreterMI
  /\ filter is_server
       (effects (main sample_platform engine_ok ["netcoredbg"; "--engineLogging"]))
     = []
  /\ exit_status (main sample_platform engine_ok ["netcoredbg"; "--engineLogging"])
     = EXIT_FAILURE.
Proof. repeat split. Qed.

(** C8: in the MI and VSCode modes, once the variant is constructed, [main]
    constructs the redirect server, and both callbacks of every redirect
    server that [main] constructs, the one for the captured standard output
    and the one for the captured standard error, emit on the protocol an
    output event of channel StdOut that carries the captured text. *)
Theorem redirect_callbacks_stdout (P : Platform) (E : Engine) (argv : list string)
        (l : Locals) (t : list Event) :
  scanned P argv l t ->
  accepted l = true ->
  interpreterType l <> InterpreterCLI ->
  (exists port onStdOut onStdErr,
      In (NewIORedirectServer port onStdOut onStdErr) (effects (main P E argv)))
  /\ forall port onStdOut onStdErr,
      In (NewIORedirectServer port onStdOut onStdErr) (effects (main P E argv)) ->
      forall text,
        onStdOut text = EmitOutputEvent (mkOutputEvent OutputStdOut text)
        /\ onStdErr text = EmitOutputEvent (mkOutputEvent OutputStdOut text).
Proof.
  intros Hs Ha Hm.
  pose proof (main_servers P E argv l t Hs) as Hf.
  rewrite Ha in Hf.
  replace (InterpreterType_eqb (interpreterType l) InterpreterCLI) with false in Hf
    by (destruct (interpreterType l); [reflexivity | reflexivity | congruence]).
  cbn in Hf. split.
  - exists (serverPort l), redirect_StdOut, redirect_StdOut.
    apply (filter_In is_server). rewrite Hf. now left.
  - intros port f g Hin text.
    assert (Hin' : In (NewIORedirectServer port f g)
                      (filter is_server (effects (main P E argv))))
      by (apply filter_In; split; [exact Hin | reflexivity]).
    rewrite Hf in Hin'. destruct Hin' as [[= <- <- <-]|[]].
    split; reflexivity.
Qed.

Lemma redirect_callbacks_stdout_witness :
  (exists port onStdOut onStdErr,
      In (NewIORedirectServer port onStdOut onStdErr)
         (effects (main sample_platform engine_ok
                        ["netcoredbg"; "--interpreter=vscode"; "--server"])))
  /\ forall port onStdOut onStdErr,
      In (NewIORedirectServer port onStdOut onStdErr)
         (effects (main sample_platform engine_ok
                        ["netcoredbg"; "--interpreter=vscode"; "--server"])) ->
      forall text,
        onStdOut text = EmitOutputEvent (mkOutputEvent OutputStdOut text)
        /\ onStdErr text = EmitOutputEvent (mkOutputEvent OutputStdOut text).
Proof.
  apply (redirect_callbacks_stdout sample_platform engine_ok
           ["netcoredbg"; "--interpreter=vscode"; "--server"]
           (set_serverPort DEFAULT_SERVER_PORT
              (set_interpreterType InterpreterVSCode initial_locals)) []).
  - reflexivity.
  - reflexivity.
  - cbn. discriminate.
Defined.

(** * Errors on the command line *)

(** C6 (as amended): when the scan, having passed over a prefix of plain
    options and of [--attach] with numbers, comes to an unknown option, to
    [--attach] or the separator as the last argument, or to [--attach] or
    [--server=] with a value that is there and is not a number, [main]
    writes one message to the error stream and exits at once with the
    failure status, and it has constructed neither a protocol variant nor
    the engine handle nor a redirect server. *)
Theorem scan_error_exit (P : Platform) (E : Engine) (argv0 : string)
        (pre suf : list string) :
  passes pre = true ->
  offending suf = true ->
  exists t msg,
    main P E (argv0 :: pre ++ suf)
    = (EXIT_FAILURE, CinTieNull :: (t ++ [Stderr msg])%list)
    /\ forallb is_setenv t = true
    /\ none is_construction (effects (main P E (argv0 :: pre ++ suf))).
Proof.
  intros Hp Ho.
  destruct (passes_runs_through P argv0 pre initial_locals Hp)
    as (l' & t & Hr & Ht & _).
  destruct (runs_through_offending P argv0 pre suf _ _ _ Hr Ho) as [msg Hm].
  exists t, msg.
  assert (Hmain : main P E (argv0 :: pre ++ suf)
                  = (EXIT_FAILURE, CinTieNull :: (t ++ [Stderr msg])%list))
    by (apply main_stopped; exact Hm).
  split; [exact Hmain|]. split; [exact Ht|].
  rewrite Hmain. unfold none, effects. cbn [snd forallb is_construction negb andb].
  rewrite forallb_app. cbn. rewrite andb_true_r.
  rewrite forallb_forall in Ht |- *. intros e He.
  specialize (Ht e He). now destruct e.
Qed.

Lemma scan_error_exit_witness :
  exists t msg,
    main sample_platform engine_ok
         ("netcoredbg" :: ["--interpreter=vscode"; "--attach"; "12"] ++ ["--attach"; "pid"])
    = (EXIT_FAILURE, CinTieNull :: (t ++ [Stderr msg])%list)
    /\ forallb is_setenv t = true
    /\ none is_construction
         (effects (main sample_platform engine_ok
                        ("netcoredbg" :: ["--interpreter=vscode"; "--attach"; "12"]
                                      ++ ["--attach"; "pid"]))).
Proof.
  apply (scan_error_exit sample_platform engine_ok "netcoredbg"
           ["--interpreter=vscode"; "--attach"; "12"] ["--attach"; "pid"]).
  - reflexivity.
  - reflexivity.
Defined.

(** C6 (as stated) fails: the argument list holds an unknown option, and
    [main] prints the version, writes nothing to the error stream and exits
    with success. *)
Lemma unknown_option_after_version :
  unknown_option "--bogus" = true
  /\ exit_status (main sample_platform engine_ok
                       ["netcoredbg"; "--version"; "--bogus"]) = EXIT_SUCCESS
  /\ filter is_stderr
       (effects (main sample_platform engine_ok
                      ["netcoredbg"; "--version"; "--bogus"])) = [].
Proof. repeat split. Qed.

(** An empty value after [--attach] is not a number, and the test on [*err]
    lets it pass: [strtoul] converts nothing, [endptr] is the value itself
    and points at its terminator.  The process id stays zero and the session
    runs as on the command line without the option. *)
Example empty_process_id_passes :
  is_number "" = false
  /\ converts "" = true
  /\ main sample_platform engine_ok ["netcoredbg"; "--attach"; ""]
     = main sample_platform engine_ok ["netcoredbg"].
Proof. repeat split. Qed.

(** * The separator and the launch command *)

(** C10: once the scan has come to the separator, what follows is not
    looked at as options: the next argument becomes the program to launch
    and all the others, in order, its arguments, whatever they are, and the
    other settings and the effects are those of the scan of the arguments
    before the separator; with nothing after the separator [main] reports
    the missing program on the error stream and exits with the failure
    status. *)
Theorem separator_launch (P : Platform) (E : Engine) (argv0 : string)
        (pre : list string) :
  passes pre = true ->
  exists l0 t,
    scanned P (argv0 :: pre) l0 t
    /\ (forall file args,
          scanned P (argv0 :: pre ++ "--" :: file :: args)
                  (push_back_execArgs args (set_execFile file l0)) t
          /\ execFile (push_back_execArgs args (set_execFile file l0)) = file
          /\ execArgs (push_back_execArgs args (set_execFile file l0)) = args)
    /\ main P E (argv0 :: pre ++ ["--"])
       = (EXIT_FAILURE,
          CinTieNull
            :: (t ++ [Stderr ("Error: Missing program argument" ++ nl)])%list).
Proof.
  intros Hp.
  destruct (passes_runs_through P argv0 pre initial_locals Hp)
    as (l0 & t & Hr & Ht & Hf & Ha & _).
  exists l0, t. split; [|split].
  - unfold scanned. cbn [hd tl]. now apply runs_through_end.
  - intros file args. split; [|split].
    + unfold scanned. cbn [hd tl]. now apply runs_through_launch.
    + reflexivity.
    + cbn. now rewrite Ha.
  - apply main_stopped. cbn [hd tl]. rewrite Hr. reflexivity.
Qed.

Lemma separator_launch_witness :
  exists l0 t,
    scanned sample_platform ("netcoredbg" :: ["--interpreter=cli"; "--log=/tmp/d.log"])
            l0 t
    /\ (forall file args,
          scanned sample_platform
                  ("netcoredbg" :: ["--interpreter=cli"; "--log=/tmp/d.log"]
                                ++ "--" :: file :: args)
                  (push_back_execArgs args (set_execFile file l0)) t
          /\ execFile (push_back_execArgs args (set_execFile file l0)) = file
          /\ execArgs (push_back_execArgs args (set_execFile file l0)) = args)
    /\ main sample_platform engine_ok
            ("netcoredbg" :: ["--interpreter=cli"; "--log=/tmp/d.log"] ++ ["--"])
       = (EXIT_FAILURE,
          CinTieNull
            :: (t ++ [Stderr ("Error: Missing program argument" ++ nl)])%list).
Proof.
  apply (separator_launch sample_platform engine_ok "netcoredbg"
           ["--interpreter=cli"; "--log=/tmp/d.log"]).
  reflexivity.
Defined.

(** Arguments that look like options are launch arguments after the
    separator. *)
Example separator_hides_options :
  main sample_platform engine_ok
       ["netcoredbg"; "--interpreter=cli"; "--"; "dotnet"; "--help"; "--"; "--bogus"]
  = (EXIT_SUCCESS,
     [CinTieNull; LogI "Start logging"; NewManagedDebugger;
      LogI "InterpreterCLI selected"; NewProtocol InterpreterCLI;
      SetDebugger InterpreterCLI; LogI "SetDebugger for InterpreterCLI";
      SetLaunchCommand InterpreterCLI "dotnet" ["--help"; "--"; "--bogus"];
      SetProtocol; LogI "pidDebugee 0"; CommandLoop]).
Proof. reflexivity. Qed.

(** * Attaching to process id zero *)

Lemma strtoul_zero : strtoul "0" = (0, "").
Proof. reflexivity. Qed.

Lemma set_pidDebuggee_same (l : Locals) (pid : DWORD) :
  pidDebuggee l = pid -> set_pidDebuggee pid l = l.
Proof. destruct l. cbn. now intros ->. Qed.

(** [--attach 0], met while the process id is still zero, changes nothing
    in the scan of what follows. *)
Lemma attach_zero_neutral (P : Platform) (argv0 : string) (l : Locals)
      (rest : list string) :
  pidDebuggee l = 0 ->
  parse_args P argv0 l ("--attach" :: "0" :: rest) = parse_args P argv0 l rest.
Proof.
  intros Hpid. cbn [parse_args]. rewrite streq_refl, strtoul_zero.
  now rewrite (set_pidDebuggee_same l (to_DWORD 0) Hpid).
Qed.

(** Without a process id the session makes no lifecycle call and, once the
    variant is constructed, goes to the command loop. *)
Lemma session_without_attach (E : Engine) (l : Locals) :
  pidDebuggee l = 0 ->
  filter (fun e => is_lifecycle e || is_command_loop e) (snd (run (session E l)))
  = (if accepted l then [CommandLoop] else [])
  /\ fst (run (session E l)) = if accepted l then EXIT_SUCCESS else EXIT_FAILURE.
Proof.
  destruct l as [pid mode elog path port file args].
  destruct E as [hi ha hc]. unfold accepted.
  cbn [pidDebuggee interpreterType engineLogging]. intros ->.
  destruct mode, elog; session_cases; split; reflexivity.
Qed.

(** C9: [--attach 0] is taken by the scan like any process id ([strtoul]
    converts the whole of it), and [main] then behaves exactly as on the same
    command line without it: no call of [Initialize], [Attach] or
    [ConfigurationDone] is made, and once the variant is constructed the
    session goes to the command loop and exits with success. *)
Theorem attach_zero_skipped (P : Platform) (E : Engine) (argv0 : string)
        (pre rest : list string) (cmd : option (string * list string)) :
  passes pre = true ->
  ~ In "--attach" pre ->
  passes rest = true ->
  ~ In "--attach" rest ->
  converts "0" = true
  /\ main P E (argv0 :: pre ++ "--attach" :: "0" :: rest ++ launch_tail cmd)
     = main P E (argv0 :: pre ++ rest ++ launch_tail cmd)
  /\ exists l t,
      scanned P (argv0 :: pre ++ "--attach" :: "0" :: rest ++ launch_tail cmd) l t
      /\ pidDebuggee l = 0
      /\ filter (fun e => is_lifecycle e || is_command_loop e)
                (effects (main P E (argv0 :: pre ++ "--attach" :: "0"
                                          :: rest ++ launch_tail cmd)))
         = (if accepted l then [CommandLoop] else [])
      /\ exit_status (main P E (argv0 :: pre ++ "--attach" :: "0"
                                      :: rest ++ launch_tail cmd))
         = if accepted l then EXIT_SUCCESS else EXIT_FAILURE.
Proof.
  intros Hp Hn Hp' Hn'.
  destruct (passes_runs_through P argv0 pre initial_locals Hp)
    as (l1 & t1 & Hr & Ht1 & _ & _ & Hpid & _).
  specialize (Hpid Hn). cbn in Hpid.
  assert (Heq : parse_args P argv0 initial_locals
                  (pre ++ "--attach" :: "0" :: rest ++ launch_tail cmd)
                = parse_args P argv0 initial_locals
                    (pre ++ rest ++ launch_tail cmd)).
  { rewrite !Hr, !bind_Next.
    now rewrite (attach_zero_neutral P argv0 l1 _ Hpid). }
  split; [reflexivity|]. split.
  - unfold main, main_body. cbn [hd tl]. now rewrite Heq.
  - destruct (passes_scan_from P argv0 rest cmd l1 Hp')
      as (l & t & Hscan & Ht & Hpid' & _).
    specialize (Hpid' Hn'). rewrite Hpid in Hpid'.
    exists l, (t1 ++ t)%list.
    assert (Hs : scanned P (argv0 :: pre ++ "--attach" :: "0"
                                  :: rest ++ launch_tail cmd) l (t1 ++ t)%list).
    { unfold scanned. cbn [hd tl]. rewrite Heq, Hr, bind_Next, Hscan.
      reflexivity. }
    split; [exact Hs|]. split; [exact Hpid'|].
    pose proof (scanned_effects _ _ _ _ Hs) as Hscan_eff.
    destruct (session_without_attach E l Hpid') as [Hf Hx].
    by_session Hs. split; [|exact Hx].
    cbn [filter is_lifecycle is_command_loop orb]. rewrite filter_app, Hf.
    rewrite (filter_scan_effects _ (t1 ++ t)%list); [reflexivity|scan_class|exact Hscan_eff].
Qed.

Lemma attach_zero_skipped_witness :
  converts "0" = true
  /\ main sample_platform engine_configuration_fails
          ("netcoredbg" :: ["--interpreter=vscode"] ++ "--attach" :: "0"
                        :: ["--server"] ++ launch_tail (Some ("app.dll", ["-v"])))
     = main sample_platform engine_configuration_fails
            ("netcoredbg" :: ["--interpreter=vscode"] ++ ["--server"]
                          ++ launch_tail (Some ("app.dll", ["-v"])))
  /\ exists l t,
      scanned sample_platform
              ("netcoredbg" :: ["--interpreter=vscode"] ++ "--attach" :: "0"
                            :: ["--server"] ++ launch_tail (Some ("app.dll", ["-v"])))
              l t
      /\ pidDebuggee l = 0
      /\ filter (fun e => is_lifecycle e || is_command_loop e)
                (effects (main sample_platform engine_configuration_fails
                               ("netcoredbg" :: ["--interpreter=vscode"]
                                  ++ "--attach" :: "0" :: ["--server"]
                                  ++ launch_tail (Some ("app.dll", ["-v"])))))
         = (if accepted l then [CommandLoop] else [])
      /\ exit_status (main sample_platform engine_configuration_fails
                           ("netcoredbg" :: ["--interpreter=vscode"]
                              ++ "--attach" :: "0" :: ["--server"]
                              ++ launch_tail (Some ("app.dll", ["-v"]))))
         = if accepted l then EXIT_SUCCESS else EXIT_FAILURE.
Proof.
  apply (attach_zero_skipped sample_platform engine_configuration_fails
           "netcoredbg" ["--interpreter=vscode"] ["--server"]
           (Some ("app.dll", ["-v"]))).
  - reflexivity.
  - cbn. intros [H|[]]. discriminate H.
  - reflexivity.
  - cbn. intros [H|[]]. discriminate H.
Defined.

(** The plain case: [--attach 0] alone, and no argument at all. *)
Example attach_zero_alone :
  main sample_platform engine_configuration_fails ["netcoredbg"; "--attach"; "0"]
  = main sample_platform engine_configuration_fails ["netcoredbg"]
  /\ main sample_platform engine_configuration_fails ["netcoredbg"; "--attach"; "0"]
     = (EXIT_SUCCESS,
        [CinTieNull; LogI "Start logging"; NewManagedDebugger;
         LogI "InterpreterMI selected"; NewProtocol InterpreterMI;
         SetDebugger InterpreterMI; LogI "SetDebugger for InterpreterMI";
         SetProtocol; NewIORedirectServer 0 redirect_StdOut redirect_StdOut;
         LogI "pidDebugee 0"; CommandLoop]).
Proof. split; reflexivity. Qed.

(** * The port of the redirect server *)

Lemma listening_ports_filter (t : list Event) :
  listening_ports t = listening_ports (filter is_server t).
Proof.
  unfold listening_ports.
  induction t as [|e t IH]; [reflexivity|].
  destruct e; cbn; try exact IH. now f_equal.
Qed.

Lemma resolves_scanned (P : Platform) (E : Engine) (argv : list string)
      (l : Locals) (t : list Event) :
  scanned P argv l t ->
  resolves_to P E argv (serverPort l) (resolve_port (serverPort l)).
Proof.
  intros Hs. exists l, t. split; [exact Hs|]. split; [reflexivity|].
  rewrite listening_ports_filter, (main_servers P E argv l t Hs).
  now destruct (accepted l && _).
Qed.

(** C5: for a command line without a server option, and for one whose
    server option gives the port 0, the scan leaves the port 0, which the
    redirect server resolves to 4711; the bare [--server] sets the port to
    4711 in [main] itself. *)
Theorem default_server_port (P : Platform) (E : Engine) (argv0 : string)
        (pre rest : list string) (cmd : option (string * list string)) :
  passes pre = true ->
  passes rest = true ->
  forallb (fun a => negb (starts_with "--server" a)) rest = true ->
  resolves_to P E (argv0 :: rest ++ launch_tail cmd) 0 4711
  /\ resolves_to P E (argv0 :: pre ++ "--server=0" :: rest ++ launch_tail cmd) 0 4711
  /\ resolves_to P E (argv0 :: pre ++ "--server" :: rest ++ launch_tail cmd)
                 4711 4711.
Proof.
  intros Hp Hp' Hn.
  destruct (passes_runs_through P argv0 pre initial_locals Hp)
    as (l1 & t1 & Hr & _).
  assert (from : forall l0 t0 argv port,
             parse_args P argv0 initial_locals (tl argv)
             = bind (Next l0, t0)
                    (fun x => parse_args P argv0 x (rest ++ launch_tail cmd)) ->
             hd "" argv = argv0 ->
             serverPort l0 = port ->
             resolves_to P E argv port (resolve_port port)).
  { intros l0 t0 argv port Hscan Hhd Hport.
    destruct (passes_scan_from P argv0 rest cmd l0 Hp')
      as (l & t & Hl & _ & _ & Hs).
    specialize (Hs Hn).
    assert (Hsc : scanned P argv l (t0 ++ t)%list).
    { unfold scanned. rewrite Hhd, Hscan, bind_Next, Hl. reflexivity. }
    rewrite <- Hport, <- Hs. exact (resolves_scanned P E argv l _ Hsc). }
  split; [|split].
  - apply (from initial_locals [] (argv0 :: rest ++ launch_tail cmd) 0);
      try reflexivity.
    cbn [tl]. unfold bind.
    now destruct (parse_args P argv0 initial_locals (rest ++ launch_tail cmd)).
  - apply (from (set_serverPort (to_uint16 0) l1) t1
             (argv0 :: pre ++ "--server=0" :: rest ++ launch_tail cmd) 0);
      try reflexivity.
    cbn [tl]. rewrite Hr, !bind_Next. reflexivity.
  - apply (from (set_serverPort DEFAULT_SERVER_PORT l1) t1
             (argv0 :: pre ++ "--server" :: rest ++ launch_tail cmd) 4711);
      try reflexivity.
    cbn [tl]. rewrite Hr, !bind_Next. reflexivity.
Qed.

Lemma default_server_port_witness :
  resolves_to sample_platform engine_ok
              ("netcoredbg" :: ["--interpreter=vscode"] ++ launch_tail None) 0 4711
  /\ resolves_to sample_platform engine_ok
                 ("netcoredbg" :: ["--server=5000"] ++ "--server=0"
                               :: ["--interpreter=vscode"] ++ launch_tail None)
                 0 4711
  /\ resolves_to sample_platform engine_ok
                 ("netcoredbg" :: ["--server=5000"] ++ "--server"
                               :: ["--interpreter=vscode"] ++ launch_tail None)
                 4711 4711.
Proof.
  apply (default_server_port sample_platform engine_ok "netcoredbg"
           ["--server=5000"] ["--interpreter=vscode"] None).
  - reflexivity.
  - reflexivity.
  - reflexivity.
Defined.

(** What [main] itself hands to the constructor for a command line without
    a server option is the port 0. *)
Example no_server_option_hands_zero :
  filter is_server (effects (main sample_platform engine_ok ["netcoredbg"]))
  = [NewIORedirectServer 0 redirect_StdOut redirect_StdOut].
Proof. reflexivity. Qed.

(** * The pre-seeded launch command *)

Lemma seed_of_filter (t : list Event) :
  forall acc, seed_of acc t = seed_of acc (filter is_launch t).
Proof.
  induction t as [|e t IH]; intros acc; [reflexivity|].
  destruct e; cbn; apply IH.
Qed.

(** The launch calls of a session that constructs its variant, and their
    place before the command loop. *)
Lemma session_launch (E : Engine) (l : Locals) :
  accepted l = true ->
  filter is_launch (snd (run (session E l)))
  = (if empty (execFile l) then []
     else match interpreterType l with
          | InterpreterVSCode => [OverrideLaunchCommand (execFile l) (execArgs l)]
          | kind => [SetLaunchCommand kind (execFile l) (execArgs l)]
          end)
  /\ filter (fun e => is_launch e || is_command_loop e) (snd (run (session E l)))
     = (filter is_launch (snd (run (session E l)))
          ++ filter is_command_loop (snd (run (session E l))))%list.
Proof.
  destruct l as [pid mode elog path port file args].
  destruct E as [hi ha hc]. unfold accepted.
  cbn [interpreterType engineLogging execFile execArgs].
  destruct mode, elog, (empty file) eqn:Hfile; try discriminate; intros _;
    session_cases; try discriminate;
    try (rewrite Hfile in *; discriminate); split; reflexivity.
Qed.

(** C7: when [main] constructs the variant and a program was given after
    the separator, the launch command goes to the variant before the command
    loop is called: by [SetLaunchCommand] on the MI and CLI variants, where a
    launch command of the client is the one used, and by
    [OverrideLaunchCommand] on the VSCode variant, where the pre-seeded
    command is used whatever the client asks for; without a program no
    launch call is made and the variant holds no seed. *)
Theorem launch_preseed (P : Platform) (E : Engine) (argv : list string)
        (l : Locals) (t : list Event) :
  scanned P argv l t ->
  accepted l = true ->
  filter (fun e => is_launch e || is_command_loop e) (effects (main P E argv))
  = (filter is_launch (effects (main P E argv))
       ++ filter is_command_loop (effects (main P E argv)))%list
  /\ if empty (execFile l)
     then filter is_launch (effects (main P E argv)) = []
          /\ seed_of NoSeed (effects (main P E argv)) = NoSeed
     else match interpreterType l with
          | InterpreterVSCode =>
              filter is_launch (effects (main P E argv))
              = [OverrideLaunchCommand (execFile l) (execArgs l)]
              /\ forall client,
                  launch_used (seed_of NoSeed (effects (main P E argv))) client
                  = Some (execFile l, execArgs l)
          | kind =>
              filter is_launch (effects (main P E argv))
              = [SetLaunchCommand kind (execFile l) (execArgs l)]
              /\ (forall command,
                     launch_used (seed_of NoSeed (effects (main P E argv)))
                                 (Some command)
                     = Some command)
              /\ launch_used (seed_of NoSeed (effects (main P E argv))) None
                 = Some (execFile l, execArgs l)
          end.
Proof.
  intros Hs Ha.
  pose proof (scanned_effects _ _ _ _ Hs) as Hscan.
  destruct (session_launch E l Ha) as [Hl Ho].
  assert (T1 : filter is_launch t = [])
    by (apply filter_scan_effects; [scan_class | exact Hscan]).
  assert (T2 : filter (fun e => is_launch e || is_command_loop e) t = [])
    by (apply filter_scan_effects; [scan_class | exact Hscan]).
  assert (T3 : filter is_command_loop t = [])
    by (apply filter_scan_effects; [scan_class | exact Hscan]).
  assert (HL : filter is_launch (effects (main P E argv))
               = filter is_launch (snd (run (session E l)))).
  { by_session Hs. cbn [filter is_launch]. now rewrite filter_app, T1. }
  split.
  - rewrite HL. by_session Hs.
    cbn [filter is_launch is_command_loop orb].
    now rewrite !filter_app, T2, T3, Ho.
  - rewrite (seed_of_filter (effects (main P E argv))), HL, Hl.
    destruct (empty (execFile l)); [now split|].
    destruct (interpreterType l); cbn; repeat split.
Qed.

Lemma launch_preseed_witness :
  (filter (fun e => is_launch e || is_command_loop e)
     (effects (main sample_platform engine_ok
                    ["netcoredbg"; "--interpreter=vscode"; "--"; "app.dll"; "-v"]))
   = (filter is_launch
        (effects (main sample_platform engine_ok
                       ["netcoredbg"; "--interpreter=vscode"; "--"; "app.dll"; "-v"]))
        ++ filter is_command_loop
             (effects (main sample_platform engine_ok
                            ["netcoredbg"; "--interpreter=vscode"; "--";
                             "app.dll"; "-v"])))%list
   /\ filter is_launch
        (effects (main sample_platform engine_ok
                       ["netcoredbg"; "--interpreter=vscode"; "--"; "app.dll"; "-v"]))
      = [OverrideLaunchCommand "app.dll" ["-v"]]
   /\ forall client,
       launch_used
         (seed_of NoSeed
            (effects (main sample_platform engine_ok
                           ["netcoredbg"; "--interpreter=vscode"; "--";
                            "app.dll"; "-v"])))
         client
       = Some ("app.dll", ["-v"]))
  /\ (filter (fun e => is_launch e || is_command_loop e)
        (effects (main sample_platform engine_ok
                       ["netcoredbg"; "--interpreter=cli"; "--"; "app.dll"]))
      = (filter is_launch
           (effects (main sample_platform engine_ok
                          ["netcoredbg"; "--interpreter=cli"; "--"; "app.dll"]))
           ++ filter is_command_loop
                (effects (main sample_platform engine_ok
                               ["netcoredbg"; "--interpreter=cli"; "--"; "app.dll"])))%list
      /\ filter is_launch
           (effects (main sample_platform engine_ok
                          ["netcoredbg"; "--interpreter=cli"; "--"; "app.dll"]))
         = [SetLaunchCommand InterpreterCLI "app.dll" []]
      /\ (forall command,
             launch_used
               (seed_of NoSeed
                  (effects (main sample_platform engine_ok
                                 ["netcoredbg"; "--interpreter=cli"; "--"; "app.dll"])))
               (Some command)
             = Some command)
      /\ launch_used
           (seed_of NoSeed
              (effects (main sample_platform engine_ok
                             ["netcoredbg"; "--interpreter=cli"; "--"; "app.dll"])))
           None
         = Some ("app.dll", [])).
Proof.
  split.
  - apply (launch_preseed sample_platform engine_ok
             ["netcoredbg"; "--interpreter=vscode"; "--"; "app.dll"; "-v"]
             (push_back_execArgs ["-v"]
                (set_execFile "app.dll"
                   (set_interpreterType InterpreterVSCode initial_locals))) []).
    + reflexivity.
    + reflexivity.
  - apply (launch_preseed sample_platform engine_ok
             ["netcoredbg"; "--interpreter=cli"; "--"; "app.dll"]
             (push_back_execArgs []
                (set_execFile "app.dll"
                   (set_interpreterType InterpreterCLI initial_locals))) []).
    + reflexivity.
    + reflexivity.
Defined.

(** * More on the argument scan *)

(** One turn of the loop, by cases: the outcome of the scan on [a :: rest]
    is that of the branch that [a] selects.  The branches come in the order
    of the source. *)
Lemma scan_step_cases (P : Platform) (argv0 : string) (Q : M Locals -> Prop)
      (l : Locals) (a : string) (rest : list string) :
  (a = "--attach" -> rest = [] ->
   Q (fprintf_stderr ("Error: Missing process id" ++ nl) ;; exit_with EXIT_FAILURE)) ->
  (forall v rest' n c err,
      a = "--attach" -> rest = v :: rest' -> strtoul v = (n, String c err) ->
      Q (fprintf_stderr ("Error: Missing process id" ++ nl) ;;
         exit_with EXIT_FAILURE)) ->
  (forall v rest' n,
      a = "--attach" -> rest = v :: rest' -> strtoul v = (n, "") ->
      Q (parse_args P argv0 (set_pidDebuggee (to_DWORD n) l) rest')) ->
  (a = "--interpreter=mi" ->
   Q (parse_args P argv0 (set_interpreterType InterpreterMI l) rest)) ->
  (a = "--interpreter=vscode" ->
   Q (parse_args P argv0 (set_interpreterType InterpreterVSCode l) rest)) ->
  (a = "--interpreter=cli" ->
   Q (parse_args P argv0 (set_interpreterType InterpreterCLI l) rest)) ->
  (a = "--engineLogging" ->
   Q (parse_args P argv0 (set_engineLogging true l) rest)) ->
  (forall r,
      a = "--engineLogging=" ++ r ->
      Q (parse_args P argv0 (set_logFilePath r (set_engineLogging true l)) rest)) ->
  (a = "--help" -> Q (print_help ;; exit_with EXIT_SUCCESS)) ->
  (a = "--buildinfo" ->
   Q (print_buildinfo (BUILDINFO P) ;; exit_with EXIT_SUCCESS)) ->
  (a = "--version" -> Q (print_version (VERSION P) ;; exit_with EXIT_SUCCESS)) ->
  (a = "--log" ->
   Q (emit (Setenv "LOG_OUTPUT" (log_output_default P argv0)) ;;
      parse_args P argv0 l rest)) ->
  (forall r,
      a = "--log=" ++ r ->
      Q (emit (Setenv "LOG_OUTPUT" r) ;; parse_args P argv0 l rest)) ->
  (a = "--server" ->
   Q (parse_args P argv0 (set_serverPort DEFAULT_SERVER_PORT l) rest)) ->
  (forall r n c err,
      a = "--server=" ++ r -> strtoul r = (n, String c err) ->
      Q (fprintf_stderr ("Error: Missing process id" ++ nl) ;;
         exit_with EXIT_FAILURE)) ->
  (forall r n,
      a = "--server=" ++ r -> strtoul r = (n, "") ->
      Q (parse_args P argv0 (set_serverPort (to_uint16 n) l) rest)) ->
  (forall file rest',
      a = "--" -> rest = file :: rest' ->
      Q (ret (push_back_execArgs rest' (set_execFile file l)))) ->
  (a = "--" -> rest = [] ->
   Q (fprintf_stderr ("Error: Missing program argument" ++ nl) ;;
      exit_with EXIT_FAILURE)) ->
  (unknown_option a = true ->
   Q (fprintf_stderr ("Error: Unknown option " ++ a ++ nl) ;;
      exit_with EXIT_FAILURE)) ->
  Q (parse_args P argv0 l (a :: rest)).
Proof.
  intros Hmiss Hbad Hatt Hmi Hvs Hcli Hel Help Hhelp Hbuild Hver Hlog Hlogp
         Hsrv Hsbad Hsok Hsep Hsepmiss Hunk.
  cbn [parse_args].
  repeat (split_test a;
          [ match goal with
            | E : streq a _ = true |- _ => apply streq_eq in E
            | E : starts_with _ a = true |- _ => apply starts_with_advance in E
            end | ]).
  - destruct rest as [|v rest']; [now apply Hmiss|].
    destruct (strtoul v) as [n [|c err]] eqn:Ev.
    + now apply (Hatt v rest' n).
    + now apply (Hbad v rest' n c err).
  - now apply Hmi.
  - now apply Hvs.
  - now apply Hcli.
  - now apply Hel.
  - now apply (Help (advance (String.length "--engineLogging=") a)).
  - now apply Hhelp.
  - now apply Hbuild.
  - now apply Hver.
  - now apply Hlog.
  - now apply (Hlogp (advance (String.length "--log=") a)).
  - now apply Hsrv.
  - destruct (strtoul (advance (String.length "--server=") a))
      as [n [|c err]] eqn:Ev.
    + now apply (Hsok (advance (String.length "--server=") a) n).
    + now apply (Hsbad (advance (String.length "--server=") a) n c err).
  - destruct rest as [|file rest']; [now apply Hsepmiss | now apply (Hsep file rest')].
  - apply Hunk. unfold unknown_option, plain_option.
    repeat match goal with E : _ = false |- _ => rewrite E; clear E end.
    reflexivity.
Qed.

Lemma emit_bind_Next {A} (e : Event) (m : M A) (a : A) (t : list Event) :
  (emit e ;; m) = (Next a, t) -> exists t', m = (Next a, t') /\ t = e :: t'.
Proof.
  unfold emit, bind. destruct m as [[a'|c] t']; [|discriminate].
  intros [= <- <-]. now exists t'.
Qed.

(** Discharge the branches of a scan that come to no result, and bring the
    others to the scan of the rest. *)
Ltac scan_branches :=
  intros; subst;
  try match goal with
      | H : (fprintf_stderr _ ;; exit_with _) = (Next _, _) |- _ => discriminate H
      | H : (print_help ;; exit_with _) = (Next _, _) |- _ => discriminate H
      | H : (print_buildinfo _ ;; exit_with _) = (Next _, _) |- _ => discriminate H
      | H : (print_version _ ;; exit_with _) = (Next _, _) |- _ => discriminate H
      end;
  try match goal with
      | H : (emit _ ;; _) = (Next _, _) |- _ =>
          apply emit_bind_Next in H; destruct H as (? & H & ->)
      end;
  try match goal with
      | H : ret _ = (Next _, _) |- _ => injection H as <- <-
      end.

(** The process id changes only at [--attach]. *)
Lemma scan_keeps_pid (P : Platform) (argv0 : string) (args : list string) :
  forall l l' t,
    parse_args P argv0 l args = (Next l', t) ->
    ~ In "--attach" args ->
    pidDebuggee l' = pidDebuggee l.
Proof.
  induction args as [|a rest IHrest IHtail] using scan_induction; intros l.
  - cbn. now intros l' t [= <- _].
  - apply (scan_step_cases P argv0
             (fun m => forall l' t, m = (Next l', t) ->
                                    ~ In "--attach" (a :: rest) ->
                                    pidDebuggee l' = pidDebuggee l));
      scan_branches;
      try (exfalso; match goal with H : ~ In _ _ |- _ => apply H; now left end);
      try reflexivity;
      match goal with
      | H : parse_args _ _ _ _ = _, Hn : ~ In _ _ |- _ =>
          rewrite (IHrest _ _ _ H); [reflexivity | intros Hin; apply Hn; now right]
      end.
Qed.

(** After the branches are sorted out: the test on the arguments, for the
    head and for the rest. *)
Ltac frame_rest Hall :=
  cbn in Hall; try discriminate Hall;
  repeat (apply andb_prop in Hall; destruct Hall as [_ Hall]);
  exact Hall.

Ltac frame_step IHrest IHtail :=
  scan_branches;
  match goal with
  | Hall : forallb _ _ = true |- _ =>
      try (cbn in Hall; discriminate Hall);
      try match goal with r : string |- _ => solve [destruct r; cbn in Hall; discriminate Hall] end;
      try (cbn; reflexivity);
      try (cbn; repeat split; reflexivity);
      match goal with
      | H : parse_args _ _ _ _ = _ |- _ =>
          first [ apply IHrest in H | apply (IHtail _ _ eq_refl) in H ];
          [ cbn in H; exact H | frame_rest Hall ]
      end
  end.

(** The interpreter changes only at the three options that select it. *)
Lemma scan_keeps_interpreter (P : Platform) (argv0 : string) (args : list string) :
  forall l l' t,
    parse_args P argv0 l args = (Next l', t) ->
    forallb (fun a => negb (sets_interpreter a)) args = true ->
    interpreterType l' = interpreterType l.
Proof.
  induction args as [|a rest IHrest IHtail] using scan_induction; intros l.
  - cbn. now intros l' t [= <- _].
  - apply (scan_step_cases P argv0
             (fun m => forall l' t,
                  m = (Next l', t) ->
                  forallb (fun a => negb (sets_interpreter a)) (a :: rest) = true ->
                  interpreterType l' = interpreterType l));
      frame_step IHrest IHtail.
Qed.


Lemma scan_keeps_log_path (P : Platform) (argv0 : string) (args : list string) :
  forall l l' t,
    parse_args P argv0 l args = (Next l', t) ->
    forallb (fun a => negb (starts_with "--engineLogging=" a)) args = true ->
    logFilePath l' = logFilePath l.
Proof.
  induction args as [|a rest IHrest IHtail] using scan_induction; intros l.
  - cbn. now intros l' t [= <- _].
  - apply (scan_step_cases P argv0
             (fun m => forall l' t,
                  m = (Next l', t) ->
                  forallb (fun a => negb (starts_with "--engineLogging=" a))
                          (a :: rest) = true ->
                  logFilePath l' = logFilePath l));
      frame_step IHrest IHtail.
Qed.

(** Engine logging, once requested, stays requested. *)
Lemma scan_logging_stays (P : Platform) (argv0 : string) (args : list string) :
  forall l l' t,
    parse_args P argv0 l args = (Next l', t) ->
    engineLogging l = true ->
    engineLogging l' = true.
Proof.
  induction args as [|a rest IHrest IHtail] using scan_induction; intros l.
  - cbn. now intros l' t [= <- _].
  - apply (scan_step_cases P argv0
             (fun m => forall l' t,
                  m = (Next l', t) -> engineLogging l = true ->
                  engineLogging l' = true));
      scan_branches; try assumption;
      match goal with
      | H : parse_args _ _ _ _ = _ |- _ =>
          first [ apply IHrest in H | apply (IHtail _ _ eq_refl) in H ];
          [ exact H | cbn; first [assumption | reflexivity] ]
      end.
Qed.

(** The range of the process id and of the port is kept. *)
Lemma scan_in_range (P : Platform) (argv0 : string) (args : list string) :
  forall l l' t,
    parse_args P argv0 l args = (Next l', t) ->
    in_range l ->
    in_range l'.
Proof.
  assert (Hpid : forall n, 0 <= to_DWORD n < 2 ^ 32)
    by (intros n; apply Z.mod_pos_bound; reflexivity).
  assert (Hport : forall n, 0 <= to_uint16 n < 2 ^ 16)
    by (intros n; apply Z.mod_pos_bound; reflexivity).
  induction args as [|a rest IHrest IHtail] using scan_induction; intros l.
  - cbn. now intros l' t [= <- _].
  - apply (scan_step_cases P argv0
             (fun m => forall l' t,
                  m = (Next l', t) -> in_range l -> in_range l'));
      scan_branches; try assumption;
      match goal with
      | H : parse_args _ _ _ _ = _, R : in_range _ |- _ =>
          first [ apply IHrest in H | apply (IHtail _ _ eq_refl) in H ];
          [ exact H
          | destruct R as [R1 R2]; split; cbn;
            first [ assumption | apply Hpid | apply Hport
                  | unfold DEFAULT_SERVER_PORT; lia ] ]
      end.
Qed.

(** The launch command changes only at the separator. *)
Lemma scan_keeps_launch (P : Platform) (argv0 : string) (args : list string) :
  forall l l' t,
    parse_args P argv0 l args = (Next l', t) ->
    ~ In "--" args ->
    execFile l' = execFile l /\ execArgs l' = execArgs l.
Proof.
  induction args as [|a rest IHrest IHtail] using scan_induction; intros l.
  - cbn. now intros l' t [= <- _].
  - apply (scan_step_cases P argv0
             (fun m => forall l' t,
                  m = (Next l', t) -> ~ In "--" (a :: rest) ->
                  execFile l' = execFile l /\ execArgs l' = execArgs l));
      scan_branches;
      try (exfalso; match goal with H : ~ In _ _ |- _ => apply H; now left end);
      match goal with
      | H : parse_args _ _ _ _ = _, Hn : ~ In _ _ |- _ =>
          first [ apply IHrest in H | apply (IHtail _ _ eq_refl) in H ];
          [ exact H | intros Hin; apply Hn; cbn; tauto ]
      end.
Qed.

(** The scan touches the environment only at the logging options. *)
Lemma scan_setenv_only_log (P : Platform) (argv0 : string) (args : list string) :
  forall l,
    forallb (fun a => negb (starts_with "--log" a)) args = true ->
    filter is_setenv (snd (parse_args P argv0 l args)) = [].
Proof.
  induction args as [|a rest IHrest IHtail] using scan_induction; intros l.
  - reflexivity.
  - apply (scan_step_cases P argv0
             (fun m => forallb (fun a => negb (starts_with "--log" a))
                               (a :: rest) = true ->
                       filter is_setenv (snd m) = []));
      intros; subst; try reflexivity;
      match goal with
      | Hall : forallb _ _ = true |- _ =>
          try (cbn in Hall; discriminate Hall);
          try match goal with r : string |- _ => solve [destruct r; cbn in Hall; discriminate Hall] end;
          first [ apply IHrest | apply (IHtail _ _ eq_refl) ];
          frame_rest Hall
      end.
Qed.

(** ** The kinds of runs *)

Lemma scan_shape_emit (e : Event) (m : M Locals) :
  is_setenv e = true -> scan_shape m -> scan_shape (emit e ;; m).
Proof.
  intros He (t & s & Hm & Ht & Hs). exists (e :: t), s.
  destruct m as [[l|c] tm]; cbn in *; subst tm; rewrite ?He, ?Ht; auto.
Qed.

Lemma scan_has_shape (P : Platform) (argv0 : string) (args : list string) :
  forall l, scan_shape (parse_args P argv0 l args).
Proof.
  induction args as [|a rest IHrest IHtail] using scan_induction; intros l.
  - now exists [], [].
  - apply (scan_step_cases P argv0 scan_shape); intros; subst;
      try apply IHrest; try apply (IHtail _ _ eq_refl);
      try (apply scan_shape_emit; [reflexivity | apply IHrest]);
      try (now exists [], []);
      try (eexists [], _; cbn; split; [reflexivity|]; split; [reflexivity|];
           right; split; [reflexivity|]; eexists; reflexivity);
      (eexists [], _; cbn; split; [reflexivity|]; split; [reflexivity|];
       left; split; [reflexivity|]; split; [discriminate | reflexivity]).
Qed.

Lemma filter_setenv_class (p : Event -> bool) (t : list Event) :
  (forall e, is_setenv e = true -> p e = false) ->
  forallb is_setenv t = true -> filter p t = [].
Proof.
  intros Hp. induction t as [|e t IH]; cbn; [reflexivity|].
  intros H. apply andb_prop in H. destruct H as [He Ht].
  rewrite (Hp e He). now apply IH.
Qed.

Lemma filter_stdout_class (p : Event -> bool) (t : list Event) :
  (forall e, is_stdout e = true -> p e = false) ->
  forallb is_stdout t = true -> filter p t = [].
Proof.
  intros Hp. induction t as [|e t IH]; cbn; [reflexivity|].
  intros H. apply andb_prop in H. destruct H as [He Ht].
  rewrite (Hp e He). now apply IH.
Qed.

Lemma filter_stdout_all (t : list Event) :
  forallb is_stdout t = true -> filter is_stdout t = t.
Proof.
  induction t as [|e t IH]; cbn; [reflexivity|].
  intros H. apply andb_prop in H. destruct H as [He Ht].
  rewrite He. f_equal. now apply IH.
Qed.

(** A session ends in the command loop with success, or in one message on
    the error stream with failure. *)
Lemma session_kinds (E : Engine) (l : Locals) :
  (fst (run (session E l)) = EXIT_SUCCESS
   /\ filter is_command_loop (snd (run (session E l))) = [CommandLoop]
   /\ last (snd (run (session E l))) CinTieNull = CommandLoop
   /\ filter is_stderr (snd (run (session E l))) = []
   /\ filter is_stdout (snd (run (session E l))) = [])
  \/ (fst (run (session E l)) = EXIT_FAILURE
      /\ (exists msg, filter is_stderr (snd (run (session E l))) = [Stderr msg])
      /\ filter is_stdout (snd (run (session E l))) = []
      /\ filter is_command_loop (snd (run (session E l))) = []).
Proof.
  destruct l as [pid mode elog path port file args].
  destruct E as [hi ha hc].
  session_cases;
    first [ left; repeat split; reflexivity
          | right; split; [reflexivity|]; split; [eexists; reflexivity|];
            split; reflexivity ].
Qed.

Lemma last_app_cons (t s : list Event) (e d : Event) :
  last (t ++ e :: s) d = last (e :: s) d.
Proof.
  induction t as [|x t IH]; [reflexivity|].
  cbn [app]. rewrite <- IH. cbn. now destruct (t ++ e :: s)%list eqn:Ht;
    [destruct t; discriminate|].
Qed.

(** X1: every run of [main] is of one of three kinds.  A banner run exits
    with success after writing to the output stream, with nothing
    constructed and no call made.  An error run exits with failure after
    exactly one message on the error stream, and never reaches the command
    loop.  A session run calls the command loop once, as its last effect,
    exits with success and writes to neither stream. *)
Theorem main_run_kinds (P : Platform) (E : Engine) (argv : list string) :
  banner_run (main P E argv) \/ error_run (main P E argv)
  \/ session_run (main P E argv).
Proof.
  destruct (parse_args P (hd "" argv) initial_locals (tl argv))
    as [[l|code] tm] eqn:Hscan.
  - pose proof (scanned_setenv P argv l tm Hscan) as Ht.
    assert (S1 : filter is_stderr tm = [])
      by (apply filter_setenv_class; [now intros [] | exact Ht]).
    assert (S2 : filter is_stdout tm = [])
      by (apply filter_setenv_class; [now intros [] | exact Ht]).
    assert (S3 : filter is_command_loop tm = [])
      by (apply filter_setenv_class; [now intros [] | exact Ht]).
    rewrite (main_scanned P E argv l tm Hscan).
    destruct (session_kinds E l) as [(Hx & Hc & Hl & He & Ho)|(Hx & He & Ho & Hc)].
    + right. right. unfold session_run, effects, exit_status. cbn [fst snd].
      cbn [filter is_command_loop is_stderr is_stdout].
      rewrite !filter_app, S1, S2, S3, Hc, He, Ho. repeat split; try assumption.
      destruct (snd (run (session E l))) as [|e s] eqn:Hs; [discriminate Hc|].
      change (last (CinTieNull :: (tm ++ e :: s)%list) CinTieNull)
        with (last ((CinTieNull :: tm) ++ e :: s)%list CinTieNull).
      now rewrite last_app_cons.
    + right. left. unfold error_run, effects, exit_status. cbn [fst snd].
      cbn [filter is_command_loop is_stderr is_stdout].
      rewrite !filter_app, S1, S2, S3, Hc, Ho. destruct He as [msg He].
      rewrite He. repeat split; try assumption. now exists msg.
  - rewrite (main_stopped P E argv code tm Hscan).
    pose proof (scan_has_shape P (hd "" argv) (tl argv) initial_locals) as Hsh.
    rewrite Hscan in Hsh. destruct Hsh as (t & s & Htm & Ht & Hs).
    cbn [fst snd] in Htm, Hs. subst tm.
    assert (S1 : filter is_stderr t = [])
      by (apply filter_setenv_class; [now intros [] | exact Ht]).
    assert (S2 : filter is_stdout t = [])
      by (apply filter_setenv_class; [now intros [] | exact Ht]).
    assert (S3 : filter is_command_loop t = [])
      by (apply filter_setenv_class; [now intros [] | exact Ht]).
    assert (S4 : filter is_milestone t = [])
      by (apply filter_setenv_class; [now intros [] | exact Ht]).
    destruct Hs as [(-> & Hne & Hout)|(-> & msg & ->)].
    + left. unfold banner_run, effects, exit_status. cbn [fst snd].
      cbn [filter is_stdout is_stderr is_milestone is_construction
                  is_engine_call is_command_loop orb].
      rewrite !filter_app, S1, S2, S4. cbn [app].
      rewrite (filter_stdout_all s Hout).
      rewrite (filter_stdout_class is_stderr s) by (try exact Hout; now intros []).
      rewrite (filter_stdout_class is_milestone s) by (try exact Hout; now intros []).
      now repeat split.
    + right. left. unfold error_run, effects, exit_status. cbn [fst snd].
      cbn [filter is_stdout is_stderr is_command_loop].
      rewrite !filter_app, S1, S2, S3. cbn. repeat split. now exists msg.
Qed.

(** ** The banners *)

(** X2: when the scan comes to [--help], [--buildinfo] or [--version], [main]
    prints the banner on the output stream and exits with success, whatever
    follows the option on the command line, and nothing is constructed. *)
Theorem banner_stops_scan (P : Platform) (E : Engine) (argv0 : string)
        (pre : list string) :
  passes pre = true ->
  exists t,
    forallb is_setenv t = true
    /\ forall rest,
        main P E (argv0 :: pre ++ "--help" :: rest)
        = (EXIT_SUCCESS, CinTieNull :: (t ++ [Stdout help_text])%list)
        /\ main P E (argv0 :: pre ++ "--buildinfo" :: rest)
           = (EXIT_SUCCESS,
              CinTieNull :: (t ++ snd (print_buildinfo (BUILDINFO P)))%list)
        /\ main P E (argv0 :: pre ++ "--version" :: rest)
           = (EXIT_SUCCESS,
              CinTieNull :: (t ++ snd (print_version (VERSION P)))%list).
Proof.
  intros Hp.
  destruct (passes_runs_through P argv0 pre initial_locals Hp)
    as (l' & t & Hr & Ht & _).
  exists t. split; [exact Ht|].
  intros rest. repeat split; apply main_stopped; cbn [hd tl]; rewrite Hr;
    reflexivity.
Qed.

Lemma banner_stops_scan_witness :
  exists t,
    forallb is_setenv t = true
    /\ forall rest,
        main sample_platform engine_ok
             ("netcoredbg" :: ["--log=/tmp/d.log"; "--server"] ++ "--help" :: rest)
        = (EXIT_SUCCESS, CinTieNull :: (t ++ [Stdout help_text])%list)
        /\ main sample_platform engine_ok
                ("netcoredbg" :: ["--log=/tmp/d.log"; "--server"]
                              ++ "--buildinfo" :: rest)
           = (EXIT_SUCCESS,
              CinTieNull
                :: (t ++ snd (print_buildinfo (BUILDINFO sample_platform)))%list)
        /\ main sample_platform engine_ok
                ("netcoredbg" :: ["--log=/tmp/d.log"; "--server"]
                              ++ "--version" :: rest)
           = (EXIT_SUCCESS,
              CinTieNull
                :: (t ++ snd (print_version (VERSION sample_platform)))%list).
Proof.
  apply (banner_stops_scan sample_platform engine_ok "netcoredbg"
           ["--log=/tmp/d.log"; "--server"]).
  reflexivity.
Defined.

(** ** The order of the bootstrap *)

(** X3: the steps of a session come in one order: the engine object, then
    the variant and its binding to the engine, then the binding of the engine
    to the variant, then the redirect server (not in CLI mode), then the
    attach sequence (with a process id), then the command loop (unless the
    attach failed); when the variant is refused, only the engine object was
    constructed. *)
Theorem bootstrap_order (P : Platform) (E : Engine) (argv : list string)
        (l : Locals) (t : list Event) :
  scanned P argv l t ->
  filter is_milestone (effects (main P E argv))
  = if accepted l
    then ([NewManagedDebugger; NewProtocol (interpreterType l);
           SetDebugger (interpreterType l); SetProtocol]
            ++ (if InterpreterType_eqb (interpreterType l) InterpreterCLI then []
                else [NewIORedirectServer (serverPort l)
                                          redirect_StdOut redirect_StdOut])
            ++ (if pidDebuggee l =? 0 then [CommandLoop]
                else [Initialize; Attach (pidDebuggee l); ConfigurationDone]
                       ++ (if FAILED (ConfigurationDone_result E) then []
                           else [CommandLoop])))%list
    else [NewManagedDebugger].
Proof.
  intros Hs. pose proof (scanned_setenv _ _ _ _ Hs) as Ht.
  by_session Hs.
  cbn [filter is_milestone is_construction is_engine_call is_command_loop orb].
  rewrite filter_app.
  rewrite (filter_setenv_class is_milestone t) by (try exact Ht; now intros []).
  cbn [app].
  destruct l as [pid mode elog path port file args].
  destruct E as [hi ha hc]. unfold accepted.
  cbn [pidDebuggee interpreterType engineLogging serverPort
       ConfigurationDone_result].
  destruct mode, elog, (pid =? 0) eqn:Hz, (FAILED hc) eqn:Hf;
    session_cases; try reflexivity; try discriminate;
    try (rewrite Hz in *; discriminate);
    try (rewrite Hf in *; discriminate).
Qed.

Lemma bootstrap_order_witness :
  filter is_milestone
    (effects (main sample_platform engine_configuration_fails
                   ["netcoredbg"; "--interpreter=vscode"; "--attach"; "77"]))
  = [NewManagedDebugger; NewProtocol InterpreterVSCode;
     SetDebugger InterpreterVSCode; SetProtocol;
     NewIORedirectServer 0 redirect_StdOut redirect_StdOut;
     Initialize; Attach 77; ConfigurationDone].
Proof.
  apply (bootstrap_order sample_platform engine_configuration_fails
           ["netcoredbg"; "--interpreter=vscode"; "--attach"; "77"]
           (set_pidDebuggee 77
              (set_interpreterType InterpreterVSCode initial_locals)) []).
  reflexivity.
Defined.

(** ** Ranges *)

Lemma session_attach_pid (E : Engine) (l : Locals) (pid : DWORD) :
  In (Attach pid) (snd (run (session E l))) ->
  pid = pidDebuggee l /\ pidDebuggee l <> 0.
Proof.
  destruct l as [p mode elog path port file args].
  destruct E as [hi ha hc]. cbn [pidDebuggee].
  session_cases; intros Hin;
    repeat (destruct Hin as [Hin|Hin]; [try discriminate Hin|]);
    try contradiction;
    injection Hin as <-; (split; [reflexivity|]);
    intros ->; discriminate.
Qed.

Lemma scan_effect_In (P : Platform) (argv0 : string) (l : Locals)
      (args : list string) (e : Event) :
  In e (snd (parse_args P argv0 l args)) -> is_scan_effect e = true.
Proof.
  intros Hin. pose proof (scan_effects P argv0 args l) as H.
  rewrite forallb_forall in H. now apply H.
Qed.

(** The effects of [main] are those of the scan, and after a scan that runs
    to its end those of the session. *)
Lemma main_effect_In (P : Platform) (E : Engine) (argv : list string) (e : Event) :
  In e (effects (main P E argv)) ->
  e = CinTieNull
  \/ is_scan_effect e = true
  \/ exists l t, scanned P argv l t /\ In e (snd (run (session E l))).
Proof.
  destruct (parse_args P (hd "" argv) initial_locals (tl argv))
    as [[l|code] tm] eqn:Hscan.
  - rewrite (main_scanned P E argv l tm Hscan). unfold effects. cbn [snd].
    intros [<-|Hin]; [now left|]. right.
    apply in_app_or in Hin. destruct Hin as [Hin|Hin].
    + left. apply (scan_effect_In P (hd "" argv) initial_locals (tl argv)).
      now rewrite Hscan.
    + right. now exists l, tm.
  - rewrite (main_stopped P E argv code tm Hscan). unfold effects. cbn [snd].
    intros [<-|Hin]; [now left|]. right. left.
    apply (scan_effect_In P (hd "" argv) initial_locals (tl argv)).
    now rewrite Hscan.
Qed.

(** X4: whatever the command line, a process id that [main] attaches to is a
    non-zero 32-bit value and a port that it hands to the redirect server is
    a 16-bit value. *)
Theorem attach_and_port_in_range (P : Platform) (E : Engine) (argv : list string) :
  (forall pid, In (Attach pid) (effects (main P E argv)) -> 0 < pid < 2 ^ 32)
  /\ (forall port onStdOut onStdErr,
         In (NewIORedirectServer port onStdOut onStdErr) (effects (main P E argv)) ->
         0 <= port < 2 ^ 16).
Proof.
  assert (Hinit : in_range initial_locals) by (split; cbn; lia).
  split.
  - intros pid Hin.
    destruct (main_effect_In P E argv _ Hin) as [H|[H|(l & t & Hs & Hl)]];
      try discriminate H.
    destruct (session_attach_pid E l pid Hl) as [-> Hnz].
    destruct (scan_in_range P _ _ _ _ _ Hs Hinit) as [Hr _]. lia.
  - intros port f g Hin.
    destruct (main_effect_In P E argv _ Hin) as [H|[H|(l & t & Hs & Hl)]];
      try discriminate H.
    assert (Hf : In (NewIORedirectServer port f g)
                    (filter is_server (snd (run (session E l)))))
      by (apply filter_In; split; [exact Hl | reflexivity]).
    rewrite session_servers in Hf.
    destruct (accepted l && _); [|contradiction].
    destruct Hf as [[= <- _ _]|[]].
    now destruct (scan_in_range P _ _ _ _ _ Hs Hinit) as [_ Hr].
Qed.

(** ** Decimal process ids and ports *)

Lemma digits_of_uint_acc (d : Decimal.uint) :
  forall acc : positive,
    digits (Z.pos acc) (DecimalString.NilEmpty.string_of_uint d)
    = (Z.pos (Pos.of_uint_acc d acc), "").
Proof.
  induction d as [|d IH|d IH|d IH|d IH|d IH|d IH|d IH|d IH|d IH|d IH];
    intros acc; cbn [DecimalString.NilEmpty.string_of_uint digits Pos.of_uint_acc];
    [reflexivity| | | | | | | | | |];
    match goal with
    | |- context [digit_val ?c] =>
        let v := eval cbv in (digit_val c) in change (digit_val c) with v
    end;
    cbv beta iota; rewrite <- IH; f_equal; lia.
Qed.

Lemma digits_of_uint (d : Decimal.uint) :
  digits 0 (DecimalString.NilEmpty.string_of_uint d)
  = (Z.of_N (Pos.of_uint d), "").
Proof.
  induction d as [|d IH|d IH|d IH|d IH|d IH|d IH|d IH|d IH|d IH|d IH];
    cbn [DecimalString.NilEmpty.string_of_uint digits Pos.of_uint];
    [reflexivity| | | | | | | | | |];
    match goal with
    | |- context [digit_val ?c] =>
        let v := eval cbv in (digit_val c) in change (digit_val c) with v
    end;
    cbv beta iota; [exact IH | ..];
    match goal with
    | |- digits ?z _ = _ => change z with (Z.pos (Z.to_pos z))
    end;
    rewrite digits_of_uint_acc; reflexivity.
Qed.

(** A number printed in decimal begins with a digit and is read back by
    [digits]. *)
Lemma digits_fmt_u (n : Z) :
  0 <= n ->
  digits 0 (fmt_u n) = (n, "")
  /\ skip_sign (skip_space (fmt_u n)) = (false, fmt_u n)
  /\ starts_with_digit (fmt_u n) = true.
Proof.
  intros Hn. unfold fmt_u.
  pose proof (DecimalN.Unsigned.of_to (Z.to_N n)) as Hback.
  remember (N.to_uint (Z.to_N n)) as d eqn:Ed.
  assert (Hd : d <> Decimal.Nil).
  { subst d. destruct (Z.to_N n); [discriminate|].
    apply DecimalPos.Unsigned.to_uint_nonnil. }
  assert (Hs : DecimalString.NilZero.string_of_uint d
               = DecimalString.NilEmpty.string_of_uint d)
    by (destruct d; [contradiction|reflexivity..]).
  rewrite Hs.
  pose proof (digits_of_uint d) as Hdig.
  unfold N.of_uint in Hback. rewrite Hback, Z2N.id in Hdig by exact Hn.
  split; [exact Hdig|].
  destruct d; [contradiction|split; reflexivity..].
Qed.

(** [strtoul] reads back a number printed in decimal, up to [ULONG_MAX]. *)
Lemma strtoul_fmt_u (n : Z) :
  0 <= n -> strtoul (fmt_u n) = (Z.min n ULONG_MAX, "").
Proof.
  intros Hn. destruct (digits_fmt_u n Hn) as (Hdig & Hsk & Hdg).
  unfold strtoul. rewrite Hsk, Hdg, Hdig.
  destruct (ULONG_MAX <? n) eqn:Hmax.
  - apply Z.ltb_lt in Hmax. f_equal. lia.
  - apply Z.ltb_ge in Hmax. f_equal. lia.
Qed.

(** X5: [--attach] with a number printed in decimal attaches to that number
    taken modulo 2^32 (after the clamp of [strtoul] at [ULONG_MAX]); a
    multiple of 2^32 is the process id 0, for which nothing is attached. *)
Theorem attach_decimal (P : Platform) (E : Engine) (argv0 : string) (n : Z) :
  0 <= n ->
  filter is_lifecycle (effects (main P E [argv0; "--attach"; fmt_u n]))
  = if Z.min n ULONG_MAX mod 2 ^ 32 =? 0 then []
    else [Initialize; Attach (Z.min n ULONG_MAX mod 2 ^ 32); ConfigurationDone].
Proof.
  intros Hn.
  assert (Hs : scanned P [argv0; "--attach"; fmt_u n]
                       (set_pidDebuggee (Z.min n ULONG_MAX mod 2 ^ 32)
                                        initial_locals) []).
  { unfold scanned. cbn [hd tl parse_args]. rewrite streq_refl.
    now rewrite (strtoul_fmt_u n Hn). }
  by_session Hs. cbn [app filter is_lifecycle].
  generalize (Z.min n ULONG_MAX mod 2 ^ 32). intros pid.
  destruct E as [hi ha hc]. unfold set_pidDebuggee, initial_locals.
  destruct (pid =? 0) eqn:Hz; session_cases; try reflexivity;
    rewrite Hz in *; discriminate.
Qed.

Lemma attach_decimal_witness :
  filter is_lifecycle
    (effects (main sample_platform engine_ok
                   ["netcoredbg"; "--attach"; fmt_u 4294967297]))
  = [Initialize; Attach 1; ConfigurationDone].
Proof.
  apply (attach_decimal sample_platform engine_ok "netcoredbg" 4294967297).
  lia.
Defined.

(** X6: [--server=] with a number printed in decimal makes the redirect
    server's port that number modulo 2^16 (after the clamp of [strtoul]). *)
Theorem server_decimal (P : Platform) (E : Engine) (argv0 : string) (n : Z) :
  0 <= n ->
  filter is_server
    (effects (main P E [argv0; ("--server=" ++ fmt_u n)%string]))
  = [NewIORedirectServer (Z.min n ULONG_MAX mod 2 ^ 16)
                         redirect_StdOut redirect_StdOut].
Proof.
  intros Hn.
  assert (Hs : scanned P [argv0; ("--server=" ++ fmt_u n)%string]
                       (set_serverPort (Z.min n ULONG_MAX mod 2 ^ 16)
                                       initial_locals) []).
  { unfold scanned. cbn [hd tl]. cbn.
    replace (prefix "" (fmt_u n)) with true by now destruct (fmt_u n).
    now rewrite (strtoul_fmt_u n Hn). }
  now rewrite (main_servers P E _ _ _ Hs).
Qed.

Lemma server_decimal_witness :
  filter is_server
    (effects (main sample_platform engine_ok
                   ["netcoredbg"; ("--server=" ++ fmt_u 70000)%string]))
  = [NewIORedirectServer 4464 redirect_StdOut redirect_StdOut].
Proof.
  apply (server_decimal sample_platform engine_ok "netcoredbg" 70000).
  lia.
Defined.

(** ** What the options alone decide *)

Lemma session_engine_free (E E' : Engine) (l : Locals) :
  pidDebuggee l = 0 -> run (session E l) = run (session E' l).
Proof.
  destruct l as [pid mode elog path port file args]. cbn [pidDebuggee].
  intros ->. destruct E as [hi ha hc], E' as [hi' ha' hc'].
  destruct mode, elog, (empty file) eqn:Hf; session_cases; reflexivity.
Qed.

Lemma session_no_lifecycle (E : Engine) (l : Locals) :
  pidDebuggee l = 0 -> filter is_lifecycle (snd (run (session E l))) = [].
Proof.
  destruct l as [pid mode elog path port file args]. cbn [pidDebuggee].
  intros ->. destruct E as [hi ha hc].
  destruct mode, elog, (empty file) eqn:Hf; session_cases; reflexivity.
Qed.

(** X7: on a command line without [--attach], [main] makes no lifecycle call
    on the engine and its run does not depend on the engine at all. *)
Theorem no_attach_no_engine (P : Platform) (E : Engine) (argv : list string) :
  ~ In "--attach" (tl argv) ->
  filter is_lifecycle (effects (main P E argv)) = []
  /\ forall E', main P E' argv = main P E argv.
Proof.
  intros Hn.
  destruct (parse_args P (hd "" argv) initial_locals (tl argv))
    as [[l|code] tm] eqn:Hscan.
  - assert (Hpid : pidDebuggee l = 0)
      by exact (scan_keeps_pid P _ _ _ _ _ Hscan Hn).
    split.
    + pose proof (scanned_effects P argv l tm Hscan) as Ht.
      by_session Hscan. cbn [filter is_lifecycle]. rewrite filter_app.
      rewrite (filter_scan_effects is_lifecycle tm) by (try exact Ht; scan_class).
      now apply session_no_lifecycle.
    + intros E'. rewrite !(main_scanned P _ argv l tm Hscan).
      now rewrite (session_engine_free E' E l Hpid).
  - split.
    + rewrite (main_stopped P E argv code tm Hscan). unfold effects. cbn.
      apply filter_scan_effects; [scan_class|].
      pose proof (scan_effects P (hd "" argv) (tl argv) initial_locals) as H.
      now rewrite Hscan in H.
    + intros E'. now rewrite !(main_stopped P _ argv code tm Hscan).
Qed.

Lemma no_attach_no_engine_witness :
  filter is_lifecycle
    (effects (main sample_platform engine_configuration_fails
                   ["netcoredbg"; "--interpreter=vscode"; "--"; "app.dll"]))
  = []
  /\ forall E',
      main sample_platform E' ["netcoredbg"; "--interpreter=vscode"; "--"; "app.dll"]
      = main sample_platform engine_configuration_fails
             ["netcoredbg"; "--interpreter=vscode"; "--"; "app.dll"].
Proof.
  apply (no_attach_no_engine sample_platform engine_configuration_fails
           ["netcoredbg"; "--interpreter=vscode"; "--"; "app.dll"]).
  cbn. intros [H|[H|[H|[]]]]; discriminate H.
Defined.

Lemma session_no_setenv (E : Engine) (l : Locals) :
  filter is_setenv (snd (run (session E l))) = [].
Proof.
  destruct l as [pid mode elog path port file args]. destruct E as [hi ha hc].
  session_cases; reflexivity.
Qed.

(** X8: on a command line without an argument that begins with [--log],
    [main] does not touch the environment. *)
Theorem setenv_only_log (P : Platform) (E : Engine) (argv : list string) :
  forallb (fun a => negb (starts_with "--log" a)) (tl argv) = true ->
  filter is_setenv (effects (main P E argv)) = [].
Proof.
  intros Hn.
  pose proof (scan_setenv_only_log P (hd "" argv) (tl argv) initial_locals Hn)
    as Hscan.
  destruct (parse_args P (hd "" argv) initial_locals (tl argv))
    as [[l|code] tm] eqn:Hp; cbn [snd] in Hscan.
  - by_session Hp. cbn [filter is_setenv].
    now rewrite filter_app, Hscan, session_no_setenv.
  - rewrite (main_stopped P E argv code tm Hp). unfold effects. cbn. exact Hscan.
Qed.

Lemma setenv_only_log_witness :
  filter is_setenv
    (effects (main sample_platform engine_ok
                   ["netcoredbg"; "--interpreter=cli"; "--attach"; "12"]))
  = [].
Proof.
  apply (setenv_only_log sample_platform engine_ok
           ["netcoredbg"; "--interpreter=cli"; "--attach"; "12"]).
  reflexivity.
Defined.

(** The scan of a prefix that passes, followed by a launch tail. *)
Lemma passes_scan_tail (P : Platform) (argv0 : string) (rest : list string)
      (cmd : option (string * list string)) (l : Locals) :
  passes rest = true ->
  exists l3 t3,
    parse_args P argv0 l rest = (Next l3, t3)
    /\ parse_args P argv0 l (rest ++ launch_tail cmd)
       = (Next match cmd with
               | None => l3
               | Some (file, args) => push_back_execArgs args (set_execFile file l3)
               end, t3).
Proof.
  intros Hp.
  destruct (passes_runs_through P argv0 rest l Hp) as (l3 & t3 & Hr & _).
  exists l3, t3. split; [now apply runs_through_end|].
  destruct cmd as [[file args]|]; cbn [launch_tail].
  - now apply runs_through_launch.
  - rewrite app_nil_r. now apply runs_through_end.
Qed.

Lemma setenv_all (t : list Event) :
  forallb is_setenv t = true -> filter is_setenv t = t.
Proof.
  induction t as [|e t IH]; cbn; [reflexivity|].
  intros H. apply andb_prop in H. destruct H as [He Ht].
  rewrite He. f_equal. now apply IH.
Qed.

(** X9: the last logging option decides: after [--log=value] (or the bare
    [--log], with the default path) and options other than logging ones, the
    last setting of the environment that [main] makes is that of
    [LOG_OUTPUT] to this value. *)
Theorem log_output_last_wins (P : Platform) (E : Engine) (argv0 : string)
        (pre rest : list string) (cmd : option (string * list string)) :
  passes pre = true ->
  passes rest = true ->
  forallb (fun a => negb (starts_with "--log" a)) rest = true ->
  exists t,
    (forall value,
        filter is_setenv
          (effects (main P E (argv0 :: pre ++ ("--log=" ++ value)%string
                                    :: rest ++ launch_tail cmd)))
        = (t ++ [Setenv "LOG_OUTPUT" value])%list)
    /\ filter is_setenv
         (effects (main P E (argv0 :: pre ++ "--log" :: rest ++ launch_tail cmd)))
       = (t ++ [Setenv "LOG_OUTPUT" (log_output_default P argv0)])%list.
Proof.
  intros Hp Hp' Hn.
  destruct (passes_runs_through P argv0 pre initial_locals Hp)
    as (l1 & t1 & Hr & Ht1 & _).
  destruct (passes_scan_tail P argv0 rest cmd l1 Hp') as (l3 & t3 & H3 & H4).
  assert (Ht3 : t3 = []).
  { pose proof (scan_setenv_only_log P argv0 rest l1 Hn) as Hf.
    rewrite H3 in Hf. cbn [snd] in Hf.
    rewrite <- (setenv_all t3); [exact Hf|].
    exact (scan_next_effects P argv0 rest _ _ _ H3). }
  subst t3. exists t1.
  assert (from : forall a value,
             (forall R, parse_args P argv0 l1 (a :: R)
                        = (emit (Setenv "LOG_OUTPUT" value) ;;
                           parse_args P argv0 l1 R)) ->
             filter is_setenv
               (effects (main P E (argv0 :: pre ++ a :: rest ++ launch_tail cmd)))
             = (t1 ++ [Setenv "LOG_OUTPUT" value])%list).
  { intros a value Ha.
    match type of H4 with _ = (Next ?l, _) => set (l4 := l) in * end.
    assert (Hs : scanned P (argv0 :: pre ++ a :: rest ++ launch_tail cmd) l4
                         (t1 ++ [Setenv "LOG_OUTPUT" value])%list).
    { unfold scanned. cbn [hd tl]. rewrite Hr, bind_Next, Ha, H4. reflexivity. }
    by_session Hs. cbn [filter is_setenv].
    rewrite !filter_app, session_no_setenv, (setenv_all t1 Ht1). cbn.
    now rewrite app_nil_r. }
  split.
  - intros value. apply from. intros R. cbn. now destruct value.
  - apply from. intros R. reflexivity.
Qed.

Lemma log_output_last_wins_witness :
  exists t,
    (forall value,
        filter is_setenv
          (effects (main sample_platform engine_ok
                         ("netcoredbg" :: ["--log"] ++ ("--log=" ++ value)%string
                                       :: ["--server"] ++ launch_tail None)))
        = (t ++ [Setenv "LOG_OUTPUT" value])%list)
    /\ filter is_setenv
         (effects (main sample_platform engine_ok
                        ("netcoredbg" :: ["--log"] ++ "--log"
                                      :: ["--server"] ++ launch_tail None)))
       = (t ++ [Setenv "LOG_OUTPUT"
                       (log_output_default sample_platform "netcoredbg")])%list.
Proof.
  apply (log_output_last_wins sample_platform engine_ok "netcoredbg"
           ["--log"] ["--server"] None).
  - reflexivity.
  - reflexivity.
  - reflexivity.
Defined.

(** X10: the interpreter is MI when no option selects one, and otherwise the
    one that the last of the selecting options names. *)
Theorem interpreter_last_wins (P : Platform) (argv0 : string)
        (pre rest : list string) (cmd : option (string * list string)) :
  passes pre = true ->
  passes rest = true ->
  forallb (fun a => negb (sets_interpreter a)) rest = true ->
  (exists l t,
      scanned P (argv0 :: rest ++ launch_tail cmd) l t
      /\ interpreterType l = InterpreterMI)
  /\ forall kind,
      exists l t,
        scanned P (argv0 :: pre ++ interpreter_option kind
                         :: rest ++ launch_tail cmd) l t
        /\ interpreterType l = kind.
Proof.
  intros Hp Hp' Hn.
  assert (from : forall l1,
             exists l4 t3,
               parse_args P argv0 l1 (rest ++ launch_tail cmd) = (Next l4, t3)
               /\ interpreterType l4 = interpreterType l1).
  { intros l1.
    destruct (passes_scan_tail P argv0 rest cmd l1 Hp') as (l3 & t3 & H3 & H4).
    eexists _, t3. split; [exact H4|].
    rewrite <- (scan_keeps_interpreter P argv0 rest _ _ _ H3 Hn).
    now destruct cmd as [[file args]|]. }
  split.
  - destruct (from initial_locals) as (l4 & t3 & H4 & Hk).
    now exists l4, t3.
  - intros kind.
    destruct (passes_runs_through P argv0 pre initial_locals Hp)
      as (l1 & t1 & Hr & _).
    destruct (from (set_interpreterType kind l1)) as (l4 & t3 & H4 & Hk).
    exists l4, (t1 ++ t3)%list. split; [|exact Hk].
    unfold scanned. cbn [hd tl]. rewrite Hr, bind_Next.
    replace (parse_args P argv0 l1
               (interpreter_option kind :: rest ++ launch_tail cmd))
      with (parse_args P argv0 (set_interpreterType kind l1)
              (rest ++ launch_tail cmd))
      by now destruct kind.
    now rewrite H4.
Qed.

Lemma interpreter_last_wins_witness :
  (exists l t,
      scanned sample_platform
              ("netcoredbg" :: ["--server"] ++ launch_tail (Some ("app.dll", []))) l t
      /\ interpreterType l = InterpreterMI)
  /\ forall kind,
      exists l t,
        scanned sample_platform
                ("netcoredbg" :: ["--interpreter=cli"; "--interpreter=mi"]
                   ++ interpreter_option kind
                   :: ["--server"] ++ launch_tail (Some ("app.dll", []))) l t
        /\ interpreterType l = kind.
Proof.
  apply (interpreter_last_wins sample_platform "netcoredbg"
           ["--interpreter=cli"; "--interpreter=mi"] ["--server"]
           (Some ("app.dll", []))).
  - reflexivity.
  - reflexivity.
  - reflexivity.
Defined.

(** X11: after [--engineLogging=path], the options that follow keep engine
    logging on, and they keep the path unless they carry one themselves: a
    later bare [--engineLogging] does not clear it. *)
Theorem engine_logging_path_kept (P : Platform) (argv0 : string)
        (pre rest : list string) (cmd : option (string * list string))
        (path : string) :
  passes pre = true ->
  passes rest = true ->
  forallb (fun a => negb (starts_with "--engineLogging=" a)) rest = true ->
  exists l t,
    scanned P (argv0 :: pre ++ ("--engineLogging=" ++ path)%string
                     :: rest ++ launch_tail cmd) l t
    /\ engineLogging l = true /\ logFilePath l = path.
Proof.
  intros Hp Hp' Hn.
  destruct (passes_runs_through P argv0 pre initial_locals Hp)
    as (l1 & t1 & Hr & _).
  destruct (passes_scan_tail P argv0 rest cmd
              (set_logFilePath path (set_engineLogging true l1)) Hp')
    as (l3 & t3 & H3 & H4).
  pose proof (scan_logging_stays P argv0 rest _ _ _ H3 eq_refl) as He.
  pose proof (scan_keeps_log_path P argv0 rest _ _ _ H3 Hn) as Hl.
  cbn in Hl.
  eexists _, (t1 ++ t3)%list. split.
  - unfold scanned. cbn [hd tl]. rewrite Hr, bind_Next.
    replace (parse_args P argv0 l1
               (("--engineLogging=" ++ path)%string :: rest ++ launch_tail cmd))
      with (parse_args P argv0 (set_logFilePath path (set_engineLogging true l1))
              (rest ++ launch_tail cmd))
      by (cbn; now destruct path).
    now rewrite H4.
  - destruct cmd as [[file args]|]; cbn; now split.
Qed.

Lemma engine_logging_path_kept_witness :
  exists l t,
    scanned sample_platform
            ("netcoredbg" :: ["--server"]
               ++ ("--engineLogging=" ++ "/tmp/engine.log")%string
               :: ["--engineLogging"; "--interpreter=vscode"]
               ++ launch_tail None) l t
    /\ engineLogging l = true /\ logFilePath l = "/tmp/engine.log".
Proof.
  apply (engine_logging_path_kept sample_platform "netcoredbg"
           ["--server"] ["--engineLogging"; "--interpreter=vscode"] None
           "/tmp/engine.log").
  - reflexivity.
  - reflexivity.
  - reflexivity.
Defined.




(** ** The launch command *)

Lemma session_no_launch (E : Engine) (l : Locals) :
  empty (execFile l) = true ->
  filter is_launch (snd (run (session E l))) = [].
Proof.
  destruct l as [pid mode elog path port file args]. cbn [execFile].
  intros Hf. destruct E as [hi ha hc].
  session_cases; try reflexivity; rewrite Hf in *; discriminate.
Qed.

(** X13: on a command line without the separator, [main] hands no launch
    command to any variant. *)
Theorem launch_only_from_separator (P : Platform) (E : Engine)
        (argv : list string) :
  ~ In "--" (tl argv) ->
  filter is_launch (effects (main P E argv)) = [].
Proof.
  intros Hn.
  destruct (parse_args P (hd "" argv) initial_locals (tl argv))
    as [[l|code] tm] eqn:Hscan.
  - destruct (scan_keeps_launch P _ _ _ _ _ Hscan Hn) as [Hf _]. cbn in Hf.
    pose proof (scanned_effects P argv l tm Hscan) as Ht.
    by_session Hscan. cbn [filter is_launch]. rewrite filter_app.
    rewrite (filter_scan_effects is_launch tm) by (try exact Ht; scan_class).
    apply session_no_launch. now rewrite Hf.
  - rewrite (main_stopped P E argv code tm Hscan). unfold effects. cbn.
    apply filter_scan_effects; [scan_class|].
    pose proof (scan_effects P (hd "" argv) (tl argv) initial_locals) as H.
    now rewrite Hscan in H.
Qed.

Lemma launch_only_from_separator_witness :
  filter is_launch
    (effects (main sample_platform engine_ok
                   ["netcoredbg"; "--interpreter=vscode"; "--server=4712"]))
  = [].
Proof.
  apply (launch_only_from_separator sample_platform engine_ok
           ["netcoredbg"; "--interpreter=vscode"; "--server=4712"]).
  cbn. intros [H|[H|[]]]; discriminate H.
Defined.

Lemma session_empty_program (E : Engine) (l : Locals) (args : list string) :
  execFile l = "" ->
  run (session E (push_back_execArgs args (set_execFile "" l)))
  = run (session E l).
Proof.
  destruct l as [pid mode elog path port file args0]. cbn [execFile].
  intros ->. destruct E as [hi ha hc].
  unfold push_back_execArgs, set_execFile.
  cbn [pidDebuggee interpreterType engineLogging logFilePath serverPort
       execFile execArgs].
  destruct mode, elog, (pid =? 0) eqn:Hz, (FAILED hc) eqn:Hf;
    unfold session, select_protocol, start_redirect, attach,
      debugger_Initialize, debugger_Attach, debugger_ConfigurationDone,
      when, LOGI, fprintf_stderr, emit, exit_with, ret;
    cbn; rewrite ?Hz, ?Hf; reflexivity.
Qed.

(** X14: an empty program name after the separator is no launch command:
    the arguments that follow it are dropped and [main] runs as on the
    command line cut before the separator. *)
Theorem empty_program_name (P : Platform) (E : Engine) (argv0 : string)
        (pre args : list string) :
  passes pre = true ->
  main P E (argv0 :: pre ++ "--" :: "" :: args) = main P E (argv0 :: pre).
Proof.
  intros Hp.
  destruct (passes_runs_through P argv0 pre initial_locals Hp)
    as (l0 & t & Hr & _ & Hf & _).
  assert (H1 : scanned P (argv0 :: pre ++ "--" :: "" :: args)
                       (push_back_execArgs args (set_execFile "" l0)) t)
    by (unfold scanned; cbn [hd tl]; now apply runs_through_launch).
  assert (H2 : scanned P (argv0 :: pre) l0 t)
    by (unfold scanned; cbn [hd tl]; now apply runs_through_end).
  rewrite (main_scanned P E _ _ _ H1), (main_scanned P E _ _ _ H2).
  now rewrite (session_empty_program E l0 args Hf).
Qed.

Lemma empty_program_name_witness :
  main sample_platform engine_ok
       ("netcoredbg" :: ["--interpreter=vscode"] ++ "--" :: "" :: ["-v"; "x"])
  = main sample_platform engine_ok ("netcoredbg" :: ["--interpreter=vscode"]).
Proof.
  apply (empty_program_name sample_platform engine_ok "netcoredbg"
           ["--interpreter=vscode"] ["-v"; "x"]).
  reflexivity.
Defined.

(** ** The default log file *)

Lemma string_app_assoc (a b c : string) :
  ((a ++ b) ++ c)%string = (a ++ b ++ c)%string.
Proof. induction a as [|x a IH]; cbn; [reflexivity | now rewrite IH]. Qed.

Lemma string_app_nil_r (a : string) : (a ++ "")%string = a.
Proof. induction a as [|x a IH]; cbn; [reflexivity | now rewrite IH]. Qed.

Lemma no_slash_app (a b : string) :
  no_slash (a ++ b) = no_slash a && no_slash b.
Proof.
  induction a as [|x a IH]; cbn; [reflexivity|].
  now rewrite IH, andb_assoc.
Qed.

Lemma basename_from_split (s : string) :
  forall dir mid,
    no_slash mid = true ->
    (dir = "" \/ exists d, dir = (d ++ "/")%string) ->
    exists dir',
      (dir ++ mid ++ s)%string = (dir' ++ basename_from (mid ++ s) s)%string
      /\ no_slash (basename_from (mid ++ s) s) = true
      /\ (dir' = "" \/ exists d, dir' = (d ++ "/")%string).
Proof.
  induction s as [|c s IH]; intros dir mid Hmid Hdir.
  - exists dir. cbn [basename_from]. rewrite string_app_nil_r. auto.
  - cbn [basename_from]. destruct (Ascii.eqb c "/") eqn:Hc.
    + apply Ascii.eqb_eq in Hc. subst c.
      destruct (IH (dir ++ mid ++ "/")%string ""%string eq_refl) as (dir' & He & Hn & Hd).
      { right. exists (dir ++ mid)%string. now rewrite string_app_assoc. }
      exists dir'. cbn [append] in He, Hn. split; [|auto].
      rewrite <- He. rewrite !string_app_assoc. reflexivity.
    + destruct (IH dir (mid ++ String c "")%string) as (dir' & He & Hn & Hd).
      { rewrite no_slash_app, Hmid. cbn. now rewrite Hc. }
      { exact Hdir. }
      rewrite string_app_assoc in He, Hn. cbn [append] in He, Hn.
      exists dir'. auto.
Qed.

(** X15: the program name that the default log file takes from [argv[0]] is
    what follows the last slash: it holds no slash, and [argv[0]] is this
    name after a prefix that is empty or ends in a slash. *)
Theorem basename_spec (s : string) :
  no_slash (basename s) = true
  /\ exists dir,
      s = (dir ++ basename s)%string
      /\ (dir = "" \/ exists d, dir = (d ++ "/")%string).
Proof.
  destruct (basename_from_split s "" "" eq_refl (or_introl eq_refl))
    as (dir' & He & Hn & Hd).
  cbn [append] in He, Hn. unfold basename. split; [exact Hn|].
  now exists dir'.
Qed.

Lemma basename_from_no_slash (s : string) :
  forall cur, no_slash s = true -> basename_from cur s = cur.
Proof.
  induction s as [|c s IH]; intros cur; cbn; [reflexivity|].
  intros H. apply andb_prop in H. destruct H as [Hc Hs].
  apply negb_true_iff in Hc. rewrite Hc. now apply IH.
Qed.

Lemma basename_from_dir (dir name : string) :
  forall cur,
    basename_from cur (dir ++ String "/" name) = basename_from name name.
Proof.
  induction dir as [|c dir IH]; intros cur; cbn; [reflexivity|].
  destruct (Ascii.eqb c "/"); apply IH.
Qed.

Lemma substring_length_le (s : string) :
  forall n, (String.length (String.substring 0 n s) <= n)%nat.
Proof.
  induction s as [|c s IH]; intros [|n]; cbn; try lia.
  specialize (IH n). lia.
Qed.

(** X16: the default value of [LOG_OUTPUT] has fewer than [PATH_MAX]
    characters, and the directory part of [argv[0]] has no part in it. *)
Theorem default_log_path (P : Platform) (dir name : string) :
  no_slash name = true ->
  (String.length (log_output_default P (dir ++ "/" ++ name)) < PATH_MAX)%nat
  /\ log_output_default P (dir ++ "/" ++ name) = log_output_default P name.
Proof.
  intros Hn. split.
  - unfold log_output_default, snprintf.
    pose proof (substring_length_le
                  (GetTempFolder P ++ "/" ++ basename (dir ++ "/" ++ name) ++ "."
                     ++ fmt_u (getpid P mod 2 ^ 32) ++ ".log")
                  (PATH_MAX - 1)) as H.
    unfold PATH_MAX in *. lia.
  - unfold log_output_default, basename. cbn [append].
    rewrite basename_from_dir.
    now rewrite !(basename_from_no_slash name) by exact Hn.
Qed.

Lemma default_log_path_witness :
  (String.length (log_output_default sample_platform ("/usr/bin" ++ "/" ++ "netcoredbg"))
   < PATH_MAX)%nat
  /\ log_output_default sample_platform ("/usr/bin" ++ "/" ++ "netcoredbg")
     = log_output_default sample_platform "netcoredbg".
Proof.
  apply (default_log_path sample_platform "/usr/bin" "netcoredbg").
  reflexivity.
Defined.

(** ** What the platform decides *)

Lemma scan_platform_free (P P' : Platform) (argv0 argv0' : string)
      (args : list string) :
  forall l,
    forallb (fun a => negb (reads_platform a)) args = true ->
    parse_args P argv0 l args = parse_args P' argv0' l args.
Proof.
  induction args as [|a rest IHrest IHtail] using scan_induction; intros l Hall.
  - reflexivity.
  - cbn [forallb] in Hall. apply andb_prop in Hall. destruct Hall as [Ha Hr].
    unfold reads_platform in Ha. apply negb_true_iff in Ha.
    apply orb_false_elim in Ha. destruct Ha as [Ha Hb].
    apply orb_false_elim in Ha. destruct Ha as [Hlog Hver].
    cbn [parse_args]. rewrite Hlog, Hver, Hb.
    repeat (split_test a; [try (apply IHrest; exact Hr); try reflexivity|]);
      try reflexivity.
    + destruct rest as [|v rest']; [reflexivity|].
      destruct (strtoul v) as [n [|c err]]; [|reflexivity].
      apply (IHtail v rest' eq_refl).
      cbn [forallb] in Hr. apply andb_prop in Hr. now destruct Hr.
    + now rewrite (IHrest l Hr).
    + destruct (strtoul _) as [n [|c err]]; [now apply IHrest | reflexivity].
Qed.

(** X17: the values of the platform (process id, temporary folder, version
    and build strings) and [argv[0]] are read only by [--log], [--version]
    and [--buildinfo]: on a command line without these three, [main] runs
    the same on every platform and under every program name. *)
Theorem platform_only_for_log_and_banners (P P' : Platform) (E : Engine)
        (argv : list string) (argv0' : string) :
  forallb (fun a => negb (reads_platform a)) (tl argv) = true ->
  main P' E (argv0' :: tl argv) = main P E argv.
Proof.
  intros Hall. unfold main, main_body. cbn [hd tl].
  now rewrite (scan_platform_free P' P argv0' (hd "" argv) (tl argv)
                 initial_locals Hall).
Qed.

Lemma platform_only_for_log_and_banners_witness :
  main other_platform engine_ok
       ("/opt/bin/dbg" :: tl ["netcoredbg"; "--log=/tmp/d.log"; "--attach"; "12"])
  = main sample_platform engine_ok
         ["netcoredbg"; "--log=/tmp/d.log"; "--attach"; "12"].
Proof.
  apply (platform_only_for_log_and_banners sample_platform other_platform
           engine_ok ["netcoredbg"; "--log=/tmp/d.log"; "--attach"; "12"]
           "/opt/bin/dbg").
  reflexivity.
Defined.

(** ** The messages on the error stream *)

Lemma unknown_option_scan (P : Platform) (argv0 : string) (l : Locals)
      (a : string) (rest : list string) :
  unknown_option a = true ->
  parse_args P argv0 l (a :: rest)
  = (Return EXIT_FAILURE, [Stderr ("Error: Unknown option " ++ a ++ nl)]).
Proof.
  intros Hu.
  apply (scan_step_cases P argv0
           (fun m => m = (Return EXIT_FAILURE,
                          [Stderr ("Error: Unknown option " ++ a ++ nl)])));
    intros; subst; try discriminate Hu;
    try (destruct r; discriminate Hu);
    try (unfold unknown_option in Hu;
         replace (starts_with "--server=" ("--server=" ++ r)) with true in Hu
           by (cbn; now destruct r);
         rewrite orb_true_r in Hu; discriminate Hu).
  reflexivity.
Qed.

Lemma bad_value_scan (v : string) :
  not_a_number v = true -> exists n c err, strtoul v = (n, String c err).
Proof.
  intros H. apply not_a_number_converts in H. unfold converts in H.
  destruct (strtoul v) as [n [|c err]]; [discriminate|]. now exists n, c, err.
Qed.

(** X18: the message that goes with each error of the command line, after a
    prefix that the scan passes over and whatever follows the offending
    argument: an unknown option is named in the message; [--attach] without
    a value or with a value that is not a number, and also [--server=] with
    such a value, report a missing process id. *)
Theorem error_messages (P : Platform) (E : Engine) (argv0 : string)
        (pre : list string) :
  passes pre = true ->
  exists t,
    forallb is_setenv t = true
    /\ (forall a rest,
           unknown_option a = true ->
           main P E (argv0 :: pre ++ a :: rest)
           = (EXIT_FAILURE,
              CinTieNull :: (t ++ [Stderr ("Error: Unknown option " ++ a ++ nl)])%list))
    /\ main P E (argv0 :: pre ++ ["--attach"])
       = (EXIT_FAILURE,
          CinTieNull :: (t ++ [Stderr ("Error: Missing process id" ++ nl)])%list)
    /\ (forall v rest,
           not_a_number v = true ->
           main P E (argv0 :: pre ++ "--attach" :: v :: rest)
           = (EXIT_FAILURE,
              CinTieNull :: (t ++ [Stderr ("Error: Missing process id" ++ nl)])%list))
    /\ (forall v rest,
           not_a_number v = true ->
           main P E (argv0 :: pre ++ ("--server=" ++ v)%string :: rest)
           = (EXIT_FAILURE,
              CinTieNull :: (t ++ [Stderr ("Error: Missing process id" ++ nl)])%list)).
Proof.
  intros Hp.
  destruct (passes_runs_through P argv0 pre initial_locals Hp)
    as (l' & t & Hr & Ht & _).
  exists t. split; [exact Ht|]. repeat split.
  - intros a rest Hu. apply main_stopped. cbn [hd tl].
    rewrite Hr. unfold bind. now rewrite (unknown_option_scan P argv0 l' a rest Hu).
  - apply main_stopped. cbn [hd tl]. rewrite Hr. reflexivity.
  - intros v rest Hv. apply main_stopped. cbn [hd tl]. rewrite Hr.
    destruct (bad_value_scan v Hv) as (n & c & err & Hst).
    unfold bind. cbn [parse_args]. rewrite streq_refl, Hst. reflexivity.
  - intros v rest Hv. apply main_stopped. cbn [hd tl]. rewrite Hr.
    destruct (bad_value_scan v Hv) as (n & c & err & Hst).
    unfold bind. cbn.
    replace (prefix "" v) with true by now destruct v.
    rewrite Hst. reflexivity.
Qed.

Lemma error_messages_witness :
  exists t,
    forallb is_setenv t = true
    /\ (forall a rest,
           unknown_option a = true ->
           main sample_platform engine_ok
                ("netcoredbg" :: ["--interpreter=cli"] ++ a :: rest)
           = (EXIT_FAILURE,
              CinTieNull :: (t ++ [Stderr ("Error: Unknown option " ++ a ++ nl)])%list))
    /\ main sample_platform engine_ok
            ("netcoredbg" :: ["--interpreter=cli"] ++ ["--attach"])
       = (EXIT_FAILURE,
          CinTieNull :: (t ++ [Stderr ("Error: Missing process id" ++ nl)])%list)
    /\ (forall v rest,
           not_a_number v = true ->
           main sample_platform engine_ok
                ("netcoredbg" :: ["--interpreter=cli"] ++ "--attach" :: v :: rest)
           = (EXIT_FAILURE,
              CinTieNull :: (t ++ [Stderr ("Error: Missing process id" ++ nl)])%list))
    /\ (forall v rest,
           not_a_number v = true ->
           main sample_platform engine_ok
                ("netcoredbg" :: ["--interpreter=cli"]
                              ++ ("--server=" ++ v)%string :: rest)
           = (EXIT_FAILURE,
              CinTieNull :: (t ++ [Stderr ("Error: Missing process id" ++ nl)])%list)).
Proof.
  apply (error_messages sample_platform engine_ok "netcoredbg"
           ["--interpreter=cli"]).
  reflexivity.
Defined.

(** X19: when the attach fails, the one message on the error stream is the
    last effect of [main]; it gives the status of [ConfigurationDone] in
    hexadecimal and the process id. *)
Theorem attach_failure_reported (P : Platform) (E : Engine) (argv : list string)
        (l : Locals) (t : list Event) :
  scanned P argv l t ->
  accepted l = true ->
  pidDebuggee l <> 0 ->
  FAILED (ConfigurationDone_result E) = true ->
  exit_status (main P E argv) = EXIT_FAILURE
  /\ last (effects (main P E argv)) CinTieNull
     = Stderr ("Error: 0x" ++ fmt_x32 (ConfigurationDone_result E)
                 ++ " Failed to attach to " ++ fmt_d32 (pidDebuggee l) ++ nl)
  /\ filter is_stderr (effects (main P E argv))
     = [Stderr ("Error: 0x" ++ fmt_x32 (ConfigurationDone_result E)
                  ++ " Failed to attach to " ++ fmt_d32 (pidDebuggee l) ++ nl)].
Proof.
  intros Hs Ha Hp Hf.
  pose proof (scanned_setenv _ _ _ _ Hs) as Ht.
  assert (Hsess :
            fst (run (session E l)) = EXIT_FAILURE
            /\ last (snd (run (session E l))) CinTieNull
               = Stderr ("Error: 0x" ++ fmt_x32 (ConfigurationDone_result E)
                           ++ " Failed to attach to "
                           ++ fmt_d32 (pidDebuggee l) ++ nl)
            /\ filter is_stderr (snd (run (session E l)))
               = [Stderr ("Error: 0x" ++ fmt_x32 (ConfigurationDone_result E)
                            ++ " Failed to attach to "
                            ++ fmt_d32 (pidDebuggee l) ++ nl)]).
  { destruct l as [pid mode elog path port file args].
    destruct E as [hi ha hc]. unfold accepted in Ha. cbn in Ha, Hp, Hf |- *.
    assert (Hz : (pid =? 0) = false) by now apply Z.eqb_neq.
    session_cases; try discriminate;
      try (rewrite Hz in *; discriminate);
      try (rewrite Hf in *; discriminate);
      repeat split. }
  destruct Hsess as (Hx & Hl & He).
  by_session Hs. split; [exact Hx|].
  cbn [filter is_stderr]. rewrite filter_app, He.
  rewrite (filter_setenv_class is_stderr t) by (try exact Ht; now intros []).
  split; [|reflexivity].
  destruct (snd (run (session E l))) as [|e s] eqn:Hsnd; [discriminate He|].
  change (last (CinTieNull :: (t ++ e :: s)%list) CinTieNull)
    with (last ((CinTieNull :: t) ++ e :: s)%list CinTieNull).
  now rewrite last_app_cons.
Qed.

Lemma attach_failure_reported_witness :
  exit_status (main sample_platform engine_configuration_fails
                    ["netcoredbg"; "--attach"; "1234"]) = EXIT_FAILURE
  /\ last (effects (main sample_platform engine_configuration_fails
                         ["netcoredbg"; "--attach"; "1234"])) CinTieNull
     = Stderr ("Error: 0x" ++ fmt_x32 E_FAIL ++ " Failed to attach to "
                 ++ fmt_d32 1234 ++ nl)
  /\ filter is_stderr (effects (main sample_platform engine_configuration_fails
                                     ["netcoredbg"; "--attach"; "1234"]))
     = [Stderr ("Error: 0x" ++ fmt_x32 E_FAIL ++ " Failed to attach to "
                  ++ fmt_d32 1234 ++ nl)].
Proof.
  apply (attach_failure_reported sample_platform engine_configuration_fails
           ["netcoredbg"; "--attach"; "1234"]
           (set_pidDebuggee 1234 initial_locals) []).
  - reflexivity.
  - reflexivity.
  - cbn. discriminate.
  - reflexivity.
Defined.

(** ** The values that [--attach] takes *)

(** X20: the scan takes the value of [--attach] when it is a number as
    [strtoul] reads one (blanks, an optional sign, digits to the end) and
    also when it is empty, and no other; the process id is then what
    [strtoul] returns, cut to 32 bits. *)
Theorem attach_value_taken (P : Platform) (argv0 : string) (v : string) :
  ((exists l t, scanned P [argv0; "--attach"; v] l t)
   <-> (empty v || is_number v) = true)
  /\ forall l t,
      scanned P [argv0; "--attach"; v] l t ->
      l = set_pidDebuggee (fst (strtoul v) mod 2 ^ 32) initial_locals /\ t = [].
Proof.
  unfold scanned. cbn [hd tl parse_args]. rewrite streq_refl.
  rewrite <- converts_spec. unfold converts.
  destruct (strtoul v) as [n [|c err]]; cbn [fst snd empty]; split.
  - split; [reflexivity|]. intros _. now eexists _, _.
  - intros l t [= <- <-]. now split.
  - split; [|discriminate]. intros (l & t & H). discriminate H.
  - intros l t H. discriminate H.
Qed.

(** [strtoul] negates in [unsigned long] what follows a minus sign. *)
Lemma strtoul_minus_fmt_u (n : Z) :
  0 <= n <= ULONG_MAX ->
  strtoul ("-" ++ fmt_u n) = ((- n) mod 2 ^ 64, "").
Proof.
  intros Hn. destruct (digits_fmt_u n (proj1 Hn)) as (Hdig & Hsk & Hdg).
  unfold strtoul. cbn [append skip_space skip_sign].
  change (isspace "-") with false. cbv iota.
  change (skip_sign (String "-" (fmt_u n))) with (true, fmt_u n).
  cbv beta iota. rewrite Hdg, Hdig.
  destruct (ULONG_MAX <? n) eqn:Hmax; [|reflexivity].
  apply Z.ltb_lt in Hmax. lia.
Qed.

(** X21: a minus sign before the process id is taken: [--attach -n] attaches
    to the negation of [n] in 32 bits. *)
Theorem attach_negative (P : Platform) (E : Engine) (argv0 : string) (n : Z) :
  0 <= n <= ULONG_MAX ->
  filter is_lifecycle
    (effects (main P E [argv0; "--attach"; ("-" ++ fmt_u n)%string]))
  = if (- n) mod 2 ^ 32 =? 0 then []
    else [Initialize; Attach ((- n) mod 2 ^ 32); ConfigurationDone].
Proof.
  intros Hn.
  assert (Hmod : ((- n) mod 2 ^ 64) mod 2 ^ 32 = (- n) mod 2 ^ 32).
  { apply Z.mod_mod_divide. exists (2 ^ 32). reflexivity. }
  assert (Hs : scanned P [argv0; "--attach"; ("-" ++ fmt_u n)%string]
                       (set_pidDebuggee ((- n) mod 2 ^ 32) initial_locals) []).
  { unfold scanned. cbn [hd tl parse_args]. rewrite streq_refl.
    rewrite (strtoul_minus_fmt_u n Hn). unfold to_DWORD. now rewrite Hmod. }
  by_session Hs. cbn [app filter is_lifecycle].
  generalize ((- n) mod 2 ^ 32). intros pid.
  destruct E as [hi ha hc]. unfold set_pidDebuggee, initial_locals.
  destruct (pid =? 0) eqn:Hz; session_cases; try reflexivity;
    rewrite Hz in *; discriminate.
Qed.

Lemma attach_negative_witness :
  filter is_lifecycle
    (effects (main sample_platform engine_ok
                   ["netcoredbg"; "--attach"; ("-" ++ fmt_u 1)%string]))
  = [Initialize; Attach 4294967295; ConfigurationDone].
Proof.
  apply (attach_negative sample_platform engine_ok "netcoredbg" 1).
  unfold ULONG_MAX. lia.
Defined.

(** ** The last option decides *)

Lemma scan_keeps_port (P : Platform) (argv0 : string) (args : list string) :
  forall l l' t,
    parse_args P argv0 l args = (Next l', t) ->
    forallb (fun a => negb (starts_with "--server" a)) args = true ->
    serverPort l' = serverPort l.
Proof.
  induction args as [|a rest IHrest IHtail] using scan_induction; intros l.
  - cbn. now intros l' t [= <- _].
  - apply (scan_step_cases P argv0
             (fun m => forall l' t,
                  m = (Next l', t) ->
                  forallb (fun a => negb (starts_with "--server" a))
                          (a :: rest) = true ->
                  serverPort l' = serverPort l));
      frame_step IHrest IHtail.
Qed.

(** X22: of several [--attach] options the last decides the process id, and
    of several server options the last decides the port: options of other
    kinds that follow change neither. *)
Theorem last_attach_and_port_win (P : Platform) (argv0 : string)
        (pre rest : list string) (cmd : option (string * list string)) (n : Z) :
  passes pre = true ->
  passes rest = true ->
  0 <= n <= ULONG_MAX ->
  ~ In "--attach" rest ->
  forallb (fun a => negb (starts_with "--server" a)) rest = true ->
  (exists l t,
      scanned P (argv0 :: pre ++ "--attach" :: fmt_u n :: rest ++ launch_tail cmd) l t
      /\ pidDebuggee l = n mod 2 ^ 32)
  /\ (exists l t,
         scanned P (argv0 :: pre ++ ("--server=" ++ fmt_u n)%string
                          :: rest ++ launch_tail cmd) l t
         /\ serverPort l = n mod 2 ^ 16).
Proof.
  intros Hp Hp' Hn Hnoa Hnos.
  destruct (passes_runs_through P argv0 pre initial_locals Hp)
    as (l1 & t1 & Hr & _).
  assert (Hst : strtoul (fmt_u n) = (n, "")).
  { rewrite strtoul_fmt_u by lia. f_equal. lia. }
  split.
  - destruct (passes_scan_tail P argv0 rest cmd
                (set_pidDebuggee (to_DWORD n) l1) Hp') as (l3 & t3 & H3 & H4).
    pose proof (scan_keeps_pid P argv0 rest _ _ _ H3 Hnoa) as Hk. cbn in Hk.
    eexists _, (t1 ++ t3)%list. split.
    + unfold scanned. cbn [hd tl]. rewrite Hr, bind_Next.
      cbn [parse_args]. rewrite streq_refl, Hst, H4. reflexivity.
    + now destruct cmd as [[file args]|].
  - destruct (passes_scan_tail P argv0 rest cmd
                (set_serverPort (to_uint16 n) l1) Hp') as (l3 & t3 & H3 & H4).
    pose proof (scan_keeps_port P argv0 rest _ _ _ H3 Hnos) as Hk. cbn in Hk.
    eexists _, (t1 ++ t3)%list. split.
    + unfold scanned. cbn [hd tl]. rewrite Hr, bind_Next.
      replace (parse_args P argv0 l1
                 (("--server=" ++ fmt_u n)%string :: rest ++ launch_tail cmd))
        with (parse_args P argv0 (set_serverPort (to_uint16 n) l1)
                (rest ++ launch_tail cmd)).
      * now rewrite H4.
      * cbn. replace (prefix "" (fmt_u n)) with true by now destruct (fmt_u n).
        now rewrite Hst.
    + now destruct cmd as [[file args]|].
Qed.

Lemma last_attach_and_port_win_witness :
  (exists l t,
      scanned sample_platform
              ("netcoredbg" :: ["--attach"; "5"; "--server"] ++ "--attach"
                 :: fmt_u 77 :: ["--interpreter=cli"] ++ launch_tail None) l t
      /\ pidDebuggee l = 77 mod 2 ^ 32)
  /\ (exists l t,
         scanned sample_platform
                 ("netcoredbg" :: ["--attach"; "5"; "--server"]
                    ++ ("--server=" ++ fmt_u 77)%string
                    :: ["--interpreter=cli"] ++ launch_tail None) l t
         /\ serverPort l = 77 mod 2 ^ 16).
Proof.
  apply (last_attach_and_port_win sample_platform "netcoredbg"
           ["--attach"; "5"; "--server"] ["--interpreter=cli"] None 77).
  - reflexivity.
  - reflexivity.
  - unfold ULONG_MAX. lia.
  - cbn. intros [H|[]]. discriminate H.
  - reflexivity.
Defined.
